(** * tcp_proxy_epoll: a shallow embedding of the connection plane

    The Go sources embedded here are
    - [pkg/epoll/epoll_linux.go]  (the readiness notifier),
    - [service/conn.go]           ([Conn], [PipedConn]),
    - [service/backend.go]        ([backend]),
    - [service/frontend.go]       ([frontend]),
    - [service/application.go]    ([application]),
    - [service/proxy.go]          ([NewProxy]).

    Go pointers are addresses into per-type heaps of one [State]; every
    object that two owners can reach (a [Conn] shared by the two legs of a
    tunnel, the [sync.Once] of a pair, a [backend] listed by an application
    and referenced by a [Conn]) lives in such a heap, so that a write through
    one alias is seen through the other.  Calls that leave the process
    (closing a socket, [epoll_ctl]) and the calls whose number the properties
    count ([Once.Do], [finalize]) are recorded in [trace].  Logger calls other
    than the "changed active status" report, the [fmt.Println] lines and the
    buffer pool carry no state that any property reads and are left out. *)

From Stdlib Require Import ZArith List Bool Lia.
From stdpp Require Import base gmap strings list.
Import ListNotations.

(** ** Contexts ([context.Context]) *)

Module Ctx.

(** A context is either a root or was derived by [context.WithCancel]
    from a parent; [key] identifies the [cancel] function returned with
    it. *)
Inductive context : Type :=
| Background
| WithCancel (parent : context) (key : nat).

(** [Done c] for the non-blocking [select { case <-c.Done(): ... default: }]:
    a context is done when its own cancel function, or that of an
    ancestor, has been called. *)
Fixpoint Done (cancelled : gset nat) (c : context) : bool :=
  match c with
  | Background => false
  | WithCancel parent key =>
      bool_decide (key ∈ cancelled) || Done cancelled parent
  end.

End Ctx.
Export Ctx.

(** ** Errors *)

Inductive error : Type :=
| errNoActiveBackend
| errDial
| Errno (e : Z)
| Wrap (e : error) (msg : string).

(** [err == nil] *)
Definition is_nil (err : option error) : bool :=
  match err with None => true | Some _ => false end.

(** A Go result pair [(T, error)]. *)
Inductive result (A : Type) : Type :=
| Ok (a : A)
| Err (e : error).
Arguments Ok {A} a.
Arguments Err {A} e.

(** ** The object store *)

(** A [connManager] interface value: a pointer to a frontend or to a
    backend. *)
Inductive manager_ref : Type :=
| FrontendRef (p : nat)
| BackendRef (p : nat).

(** A [net.Conn] as the service sees it: the descriptor that
    [fdFromConn] digs out of it, and what its [Close()] returns. *)
Record net_Conn : Type := mkNetConn {
  Sysfd : Z;
  Close_result : option error
}.

(** [type Conn struct { net.Conn; fd int; closed atomic.Bool; manager connManager }] *)
Record Conn : Type := mkConn {
  netConn : net_Conn;
  fd : Z;
  closed : bool;
  manager : manager_ref
}.

(** [type PipedConn struct { *Conn; pipeTo *Conn; finalizeOnce *sync.Once; underIO atomic.Bool }] *)
Record PipedConn : Type := mkPiped {
  conn : nat;
  pipeTo : nat;
  finalizeOnce : nat;
  underIO : bool
}.

(** [type Epoll struct { fd int }] *)
Record Epoll : Type := mkEpoll { epfd : Z }.

(** [type application struct { logger; name string; bnds []*backend }] *)
Record application : Type := mkApplication {
  name : string;
  bnds : list nat
}.

(** [type backend struct { ctx; logger; addr; dialler; active atomic.Bool;
    rmu; connections map[int]*PipedConn; bufPool; epoller; healthcheckInterval }] *)
Record backend : Type := mkBackend {
  b_ctx : context;
  b_addr : string;
  b_active : bool;
  b_connections : gmap Z nat;
  b_epoller : Epoll;
  b_healthcheckInterval : Z
}.

(** [type frontend struct { ctx; logger; app *application; laddr; tcpListener;
    rmu; connections map[int]*PipedConn; bufPool; epoller }].  An
    application is never written after [newApplication], so the frontend
    holds it by value. *)
Record frontend : Type := mkFrontend {
  f_ctx : context;
  f_app : application;
  f_laddr : Z;
  f_connections : gmap Z nat;
  f_epoller : Epoll
}.

(** What leaves the process, and the calls that the properties count. *)
Inductive event : Type :=
| NetClose (c : nat)                 (* c.Conn.Close() of a wrapped socket *)
| TCPClose (sock : Z)                (* netConn.Close() of an unwrapped one *)
| EpollCtlAdd (ep : Z) (fd : Z)      (* unix.EpollCtl(ep, EPOLL_CTL_ADD, fd, ...) *)
| EpollCtlDel (ep : Z) (fd : Z)      (* unix.EpollCtl(ep, EPOLL_CTL_DEL, fd, nil) *)
| EpollClose (ep : Z)                (* unix.Close(ep) *)
| OnceDo (o : nat)                   (* a call of o.Do(f) *)
| Finalize (p : nat)                 (* the body of p.finalize() is entered *)
| ChangedActive (addr : string) (t : bool). (* the "changed active status" report *)

Record State : Type := mkState {
  conns : gmap nat Conn;
  pipes : gmap nat PipedConn;
  onces : gmap nat bool;
  fnds : gmap nat frontend;
  bnds_heap : gmap nat backend;
  cancelled : gset nat;
  next : nat;
  trace : list event
}.

#[global] Instance event_eq_dec : EqDecision event.
Proof. solve_decision. Defined.

(** ** The monad of the embedding

    A computation threads the [State]; [None] stands for the panic of a
    dereferenced dangling pointer, which no well-formed state reaches. *)

Definition M (A : Type) : Type := State -> option (A * State).

Definition ret {A} (a : A) : M A := fun st => Some (a, st).

Definition bind {A B} (m : M A) (k : A -> M B) : M B :=
  fun st => match m st with
            | Some (a, st') => k a st'
            | None => None
            end.

Definition panic {A} : M A := fun _ => None.

Declare Scope go_scope.
Delimit Scope go_scope with go.
Notation "x <~ m ;; k" := (bind m (fun x => k))
  (at level 100, m at next level, right associativity) : go_scope.
Notation "m ;;; k" := (bind m (fun _ => k))
  (at level 100, right associativity) : go_scope.
Open Scope go_scope.

Definition get : M State := fun st => Some (st, st).
Definition modify (f : State -> State) : M unit := fun st => Some (tt, f st).

Definition lift_opt {A} (o : option A) : M A :=
  match o with Some a => ret a | None => panic end.

(** Field updates of the store. *)
Definition log (e : event) (st : State) : State :=
  mkState (conns st) (pipes st) (onces st) (fnds st)
          (bnds_heap st) (cancelled st) (next st) (trace st ++ [e]).

Definition upd_conns (f : gmap nat Conn -> gmap nat Conn) (st : State) : State :=
  mkState (f (conns st)) (pipes st) (onces st) (fnds st)
          (bnds_heap st) (cancelled st) (next st) (trace st).

Definition upd_pipes (f : gmap nat PipedConn -> gmap nat PipedConn) (st : State) : State :=
  mkState (conns st) (f (pipes st)) (onces st) (fnds st)
          (bnds_heap st) (cancelled st) (next st) (trace st).

Definition upd_onces (f : gmap nat bool -> gmap nat bool) (st : State) : State :=
  mkState (conns st) (pipes st) (f (onces st)) (fnds st)
          (bnds_heap st) (cancelled st) (next st) (trace st).

Definition upd_fnds (f : gmap nat frontend -> gmap nat frontend) (st : State) : State :=
  mkState (conns st) (pipes st) (onces st) (f (fnds st))
          (bnds_heap st) (cancelled st) (next st) (trace st).

Definition upd_bnds (f : gmap nat backend -> gmap nat backend) (st : State) : State :=
  mkState (conns st) (pipes st) (onces st) (fnds st)
          (f (bnds_heap st)) (cancelled st) (next st) (trace st).

Definition upd_cancelled (f : gset nat -> gset nat) (st : State) : State :=
  mkState (conns st) (pipes st) (onces st) (fnds st)
          (bnds_heap st) (f (cancelled st)) (next st) (trace st).

Definition bump (st : State) : State :=
  mkState (conns st) (pipes st) (onces st) (fnds st)
          (bnds_heap st) (cancelled st) (S (next st)) (trace st).

Definition emit (e : event) : M unit := modify (log e).
Definition set_conns f : M unit := modify (upd_conns f).
Definition set_pipes f : M unit := modify (upd_pipes f).
Definition set_onces f : M unit := modify (upd_onces f).
Definition set_fnds f : M unit := modify (upd_fnds f).
Definition set_bnds f : M unit := modify (upd_bnds f).
Definition set_cancelled f : M unit := modify (upd_cancelled f).

(** A fresh address, for [&T{...}] and for [context.WithCancel]. *)
Definition fresh : M nat := fun st => Some (next st, bump st).

Definition load_conn (c : nat) : M Conn := st <~ get ;; lift_opt (conns st !! c).
Definition load_pipe (p : nat) : M PipedConn := st <~ get ;; lift_opt (pipes st !! p).
Definition load_once (o : nat) : M bool := st <~ get ;; lift_opt (onces st !! o).
Definition load_fnd (f : nat) : M frontend := st <~ get ;; lift_opt (fnds st !! f).
Definition load_bnd (b : nat) : M backend := st <~ get ;; lift_opt (bnds_heap st !! b).

(** [select { case <-ctx.Done(): ...; default: }] *)
Definition ctx_Done (c : context) : M bool :=
  st <~ get ;; ret (Done (cancelled st) c).

(** ** [service/conn.go] *)

(** [c.closed.CompareAndSwap(old, new)] *)
Definition closed_CompareAndSwap (c : nat) (old new : bool) : M bool :=
  cv <~ load_conn c ;;
  if Bool.eqb (closed cv) old then
    set_conns (<[c := mkConn (netConn cv) (fd cv) new (manager cv)]>) ;;;
    ret true
  else ret false.

(** [c.underIO.CompareAndSwap(old, new)] *)
Definition underIO_CompareAndSwap (p : nat) (old new : bool) : M bool :=
  pv <~ load_pipe p ;;
  if Bool.eqb (underIO pv) old then
    set_pipes (<[p := mkPiped (conn pv) (pipeTo pv) (finalizeOnce pv) new]>) ;;;
    ret true
  else ret false.

(** [func fdFromConn(conn net.Conn) int] *)
Definition fdFromConn (nc : net_Conn) : Z := Sysfd nc.

(** [func newConn(conn net.Conn, manager connManager) *Conn] *)
Definition newConn (nc : net_Conn) (m : manager_ref) : M nat :=
  c <~ fresh ;;
  set_conns (<[c := mkConn nc (fdFromConn nc) false m]>) ;;;
  ret c.

(** [func (c *Conn) Close() error] *)
Definition Conn_Close (c : nat) : M (option error) :=
  swapped <~ closed_CompareAndSwap c false true ;;
  if swapped then
    cv <~ load_conn c ;;
    emit (NetClose c) ;;;
    ret (Close_result (netConn cv))
  else ret None.

(** [func newPiped(conn *Conn, out *Conn, finalizeOnce *sync.Once) *PipedConn] *)
Definition newPiped (c out once : nat) : M nat :=
  p <~ fresh ;;
  set_pipes (<[p := mkPiped c out once false]>) ;;;
  ret p.

(** [func (c *PipedConn) setUnderIO(underIO bool) bool] *)
Definition setUnderIO (p : nat) (v : bool) : M bool :=
  underIO_CompareAndSwap p (negb v) v.

(** [finalizeOnce := sync.Once{}] followed by [&finalizeOnce] *)
Definition new_Once : M nat :=
  o <~ fresh ;;
  set_onces (<[o := false]>) ;;;
  ret o.

(** [func (o *sync.Once) Do(f func())]: [f] runs in the first call only,
    and the once is marked done when [f] has returned. *)
Definition Once_Do (o : nat) (f : M unit) : M unit :=
  emit (OnceDo o) ;;;
  done_ <~ load_once o ;;
  if done_ then ret tt
  else
    f ;;;
    set_onces (<[o := true]>).

(** ** [pkg/epoll]: registration calls

    [Add] and [Del] issue one [epoll_ctl] each; every caller in the service
    discards the error they return. *)
Definition Epoll_Add (e : Epoll) (fd : Z) : M unit := emit (EpollCtlAdd (epfd e) fd).
Definition Epoll_Del (e : Epoll) (fd : Z) : M unit := emit (EpollCtlDel (epfd e) fd).
Definition Epoll_Close (e : Epoll) : M unit := emit (EpollClose (epfd e)).

(** ** [service/frontend.go], [service/backend.go]: the connection maps *)

Definition f_with_connections (fv : frontend) (m : gmap Z nat) : frontend :=
  mkFrontend (f_ctx fv) (f_app fv) (f_laddr fv) m (f_epoller fv).

Definition b_with_connections (bv : backend) (m : gmap Z nat) : backend :=
  mkBackend (b_ctx bv) (b_addr bv) (b_active bv) m (b_epoller bv)
            (b_healthcheckInterval bv).

Definition b_with_active (bv : backend) (a : bool) : backend :=
  mkBackend (b_ctx bv) (b_addr bv) a (b_connections bv) (b_epoller bv)
            (b_healthcheckInterval bv).

(** [conn.fd] on a [*PipedConn]: the promoted field of the embedded [*Conn]. *)
Definition PipedConn_fd (p : nat) : M Z :=
  pv <~ load_pipe p ;;
  cv <~ load_conn (conn pv) ;;
  ret (fd cv).

(** [conn.Close()] on a [*PipedConn]: the promoted method. *)
Definition PipedConn_Close (p : nat) : M (option error) :=
  pv <~ load_pipe p ;;
  Conn_Close (conn pv).

(** [func (f *frontend) addConn(conn *PipedConn)] *)
Definition frontend_addConn (f : nat) (p : nat) : M unit :=
  fv <~ load_fnd f ;;
  done_ <~ ctx_Done (f_ctx fv) ;;
  (if done_ then PipedConn_Close p ;;; ret tt else ret tt) ;;;
  k <~ PipedConn_fd p ;;
  fv <~ load_fnd f ;;
  set_fnds (<[f := f_with_connections fv (<[k := p]> (f_connections fv))]>) ;;;
  Epoll_Add (f_epoller fv) k.

(** [func (b *backend) addConn(conn *PipedConn)] *)
Definition backend_addConn (b : nat) (p : nat) : M unit :=
  bv <~ load_bnd b ;;
  done_ <~ ctx_Done (b_ctx bv) ;;
  (if done_ then PipedConn_Close p ;;; ret tt else ret tt) ;;;
  k <~ PipedConn_fd p ;;
  bv <~ load_bnd b ;;
  set_bnds (<[b := b_with_connections bv (<[k := p]> (b_connections bv))]>) ;;;
  Epoll_Add (b_epoller bv) k.

(** [func (f *frontend) delConn(fd int)] *)
Definition frontend_delConn (f : nat) (k : Z) : M unit :=
  fv <~ load_fnd f ;;
  done_ <~ ctx_Done (f_ctx fv) ;;
  if done_ then ret tt
  else
    Epoll_Del (f_epoller fv) k ;;;
    set_fnds (<[f := f_with_connections fv (delete k (f_connections fv))]>).

(** [func (b *backend) delConn(fd int)] *)
Definition backend_delConn (b : nat) (k : Z) : M unit :=
  bv <~ load_bnd b ;;
  done_ <~ ctx_Done (b_ctx bv) ;;
  if done_ then ret tt
  else
    Epoll_Del (b_epoller bv) k ;;;
    set_bnds (<[b := b_with_connections bv (delete k (b_connections bv))]>).

(** Dynamic dispatch through the [connManager] interface. *)
Definition addConn (m : manager_ref) (p : nat) : M unit :=
  match m with
  | FrontendRef f => frontend_addConn f p
  | BackendRef b => backend_addConn b p
  end.

Definition delConn (m : manager_ref) (k : Z) : M unit :=
  match m with
  | FrontendRef f => frontend_delConn f k
  | BackendRef b => backend_delConn b k
  end.

(** [func (f *frontend) getConnByFD(fd int) *PipedConn]; [None] is [nil]. *)
Definition frontend_getConnByFD (f : nat) (k : Z) : M (option nat) :=
  fv <~ load_fnd f ;;
  ret (f_connections fv !! k).

(** [func (b *backend) getConnByFD(fd int) *PipedConn] *)
Definition backend_getConnByFD (b : nat) (k : Z) : M (option nat) :=
  bv <~ load_bnd b ;;
  ret (b_connections bv !! k).

(** [func (b *backend) getConnCount() int] *)
Definition getConnCount (b : nat) : M Z :=
  bv <~ load_bnd b ;;
  ret (Z.of_nat (size (b_connections bv))).

(** [func (c *PipedConn) finalize()] *)
Definition finalize (p : nat) : M unit :=
  emit (Finalize p) ;;;
  setUnderIO p false ;;;
  PipedConn_Close p ;;;
  pv <~ load_pipe p ;;
  Conn_Close (pipeTo pv) ;;;
  out <~ load_conn (pipeTo pv) ;;
  delConn (manager out) (fd out) ;;;
  cv <~ load_conn (conn pv) ;;
  delConn (manager cv) (fd cv).

(** ** Readiness events ([unix.EpollEvent]) *)

Record EpollEvent : Type := mkEpollEvent {
  Events : Z;   (* uint32 *)
  Fd : Z        (* int32 *)
}.

Definition EPOLLIN : Z := 0x1.
Definition EPOLLHUP : Z := 0x10.
Definition EPOLLRDHUP : Z := 0x2000.

(** A goroutine started by a [go] statement, with what it will run. *)
Inductive goroutine : Type :=
| go_finalizeOnce_Do (p : nat)
| go_serveConn (m : manager_ref) (p : nat).

(** [conn.finalizeOnce.Do(func() { ...; conn.finalize() })] *)
Definition finalizeOnce_Do (p : nat) : M unit :=
  pv <~ load_pipe p ;;
  Once_Do (finalizeOnce pv) (finalize p).

(** The part of [serveEvent] that follows the lookup; it is the same text
    in [frontend.serveEvent] and [backend.serveEvent]. *)
Definition serveEvent_found (m : manager_ref) (found : option nat)
    (event : EpollEvent) : M (list goroutine) :=
  match found with
  | None => ret []
  | Some p =>
      swapped <~ setUnderIO p true ;;
      if negb swapped then ret []
      else if negb (Z.land (Events event) (Z.lor EPOLLHUP EPOLLRDHUP) =? 0)%Z then
        ret [go_finalizeOnce_Do p]
      else if negb (Z.land (Events event) EPOLLIN =? 0)%Z then
        ret [go_serveConn m p]
      else ret []
  end.

(** [func (f *frontend) serveEvent(event unix.EpollEvent)] *)
Definition frontend_serveEvent (f : nat) (event : EpollEvent) : M (list goroutine) :=
  found <~ frontend_getConnByFD f (Fd event) ;;
  serveEvent_found (FrontendRef f) found event.

(** [func (b *backend) serveEvent(event unix.EpollEvent)] *)
Definition backend_serveEvent (b : nat) (event : EpollEvent) : M (list goroutine) :=
  found <~ backend_getConnByFD b (Fd event) ;;
  serveEvent_found (BackendRef b) found event.

Definition serveEvent (m : manager_ref) (event : EpollEvent) : M (list goroutine) :=
  match m with
  | FrontendRef f => frontend_serveEvent f event
  | BackendRef b => backend_serveEvent b event
  end.

Definition getConnByFD (m : manager_ref) (k : Z) : M (option nat) :=
  match m with
  | FrontendRef f => frontend_getConnByFD f k
  | BackendRef b => backend_getConnByFD b k
  end.

(** [func (f *frontend) serveConn(conn *PipedConn)] and
    [func (b *backend) serveConn(conn *PipedConn)], which differ in the
    receiver only; [n] and [err] are what [io.CopyBuffer] returned. *)
Definition serveConn (m : manager_ref) (p : nat) (n : Z) (err : option error) : M unit :=
  setUnderIO p false ;;;
  if negb (is_nil err) || (n =? 0)%Z then finalizeOnce_Do p
  else ret tt.

Definition run_goroutine (g : goroutine) (n : Z) (err : option error) : M unit :=
  match g with
  | go_finalizeOnce_Do p => finalizeOnce_Do p
  | go_serveConn m p => serveConn m p n err
  end.

(** ** [service/backend.go]: health state *)

(** [b.active.CompareAndSwap(old, new)] *)
Definition active_CompareAndSwap (b : nat) (old new : bool) : M bool :=
  bv <~ load_bnd b ;;
  if Bool.eqb (b_active bv) old then
    set_bnds (<[b := b_with_active bv new]>) ;;;
    ret true
  else ret false.

(** [b.active.Load()] *)
Definition active_Load (b : nat) : M bool :=
  bv <~ load_bnd b ;;
  ret (b_active bv).

(** [func (b *backend) setActive(t bool)] *)
Definition setActive (b : nat) (t : bool) : M unit :=
  swapped <~ active_CompareAndSwap b (negb t) t ;;
  if swapped then
    bv <~ load_bnd b ;;
    emit (ChangedActive (b_addr bv) t)
  else ret tt.

(** One connect attempt of [runHealthcheck]: the statements after
    [b.dialler.DialContext], which are the same for the check "right after
    start" and for the one of every tick; [dial] is what the dial
    returned. *)
Definition healthcheck_attempt (b : nat) (dial : result net_Conn) : M unit :=
  match dial with
  | Err _ => setActive b false
  | Ok netConn =>
      emit (TCPClose (Sysfd netConn)) ;;;
      setActive b true
  end.

(** The case that a [select { case <-b.ctx.Done(): ...; case <-ticker.C: ... }]
    of the health-check loop takes: the context's, which is open to it only
    when the context is done, or a tick's, with what the dial of that tick
    returned. *)
Inductive select_case : Type :=
| case_Done
| case_Tick (dial : result net_Conn).

(** The [for { select { ... } }] of [runHealthcheck], run against the cases
    its selects take.  Gives [true] when the loop has returned and [false]
    when the cases given have run out and the loop waits in its select;
    a [case_Done] on a context that is not done is no run of the loop. *)
Fixpoint runHealthcheck_loop (b : nat) (cases : list select_case) : M bool :=
  match cases with
  | [] => ret false
  | case_Done :: _ =>
      bv <~ load_bnd b ;;
      done_ <~ ctx_Done (b_ctx bv) ;;
      if done_ then ret true else panic
  | case_Tick dial :: rest =>
      healthcheck_attempt b dial ;;;
      runHealthcheck_loop b rest
  end.

(** [func (b *backend) runHealthcheck()]; [first] is what the dial "right
    after start" returned. *)
Definition runHealthcheck (b : nat) (first : result net_Conn)
    (cases : list select_case) : M bool :=
  healthcheck_attempt b first ;;;
  runHealthcheck_loop b cases.

(** [func (b *backend) createConn() (net.Conn, error)] *)
Definition createConn (b : nat) (dial : result net_Conn) : M (result net_Conn) :=
  match dial with
  | Err err =>
      setActive b false ;;;
      ret (Err (Wrap err "Dial()"))
  | Ok netConn => ret (Ok netConn)
  end.

(** ** [service/application.go] *)

(** [func newApplication(ctx, logger, name, bnds) *application]; the
    context is not stored. *)
Definition newApplication (ctx : context) (name : string) (bnds : list nat) : application :=
  mkApplication name bnds.

(** The [for _, bnd := range a.bnds] of [nextBackend], with its two local
    variables; [None] is the [nil] backend. *)
Fixpoint nextBackend_range (bnds : list nat) (next : option nat) (minConnCount : Z)
    : M (option nat) :=
  match bnds with
  | [] => ret next
  | bnd :: rest =>
      act <~ active_Load bnd ;;
      if act then
        match next with
        | None =>
            n <~ getConnCount bnd ;;
            nextBackend_range rest (Some bnd) n
        | Some _ =>
            n <~ getConnCount bnd ;;
            if (n <? minConnCount)%Z then nextBackend_range rest (Some bnd) minConnCount
            else nextBackend_range rest next minConnCount
        end
      else nextBackend_range rest next minConnCount
  end.

(** [func (a *application) nextBackend()], returning a backend and an error *)
Definition nextBackend (a : application) : M (result nat) :=
  next <~ nextBackend_range (bnds a) None 0%Z ;;
  match next with
  | None => ret (Err errNoActiveBackend)
  | Some b => ret (Ok b)
  end.

(** [func (a *application) createRemoteConnection()], returning a [Conn] and an error;
    [dial] is the outcome of the dial to whichever backend is chosen. *)
Definition createRemoteConnection (a : application) (dial : result net_Conn)
    : M (result nat) :=
  r <~ nextBackend a ;;
  match r with
  | Err err => ret (Err (Wrap err "unable to get next backend"))
  | Ok b =>
      r' <~ createConn b dial ;;
      match r' with
      | Err err => ret (Err (Wrap err "unable to connect to remote backend"))
      | Ok rNetConn =>
          c <~ newConn rNetConn (BackendRef b) ;;
          ret (Ok c)
      end
  end.

(** ** [service/frontend.go]: a new client *)

(** [tunneledConn.manager.addConn(tunneledConn)] *)
Definition manager_addConn (p : nat) : M unit :=
  pv <~ load_pipe p ;;
  cv <~ load_conn (conn pv) ;;
  addConn (manager cv) p.

(** [func (f *frontend) handleNewConnection(netConn *net.TCPConn)]; returns
    the two legs it built, if it built them. *)
Definition handleNewConnection (f : nat) (netConn : net_Conn) (dial : result net_Conn)
    : M (option (nat * nat)) :=
  fv <~ load_fnd f ;;
  r <~ createRemoteConnection (f_app fv) dial ;;
  match r with
  | Err _ =>
      emit (TCPClose (Sysfd netConn)) ;;;
      ret None
  | Ok rConn =>
      c <~ newConn netConn (FrontendRef f) ;;
      once <~ new_Once ;;
      tunneledConn <~ newPiped c rConn once ;;
      manager_addConn tunneledConn ;;;
      rTunneledConn <~ newPiped rConn c once ;;
      manager_addConn rTunneledConn ;;;
      ret (Some (tunneledConn, rTunneledConn))
  end.

(** ** [service/proxy.go] *)

(** [type ConfigApp struct { Name string; Ports []int; Targets []string }] *)
Record ConfigApp : Type := mkConfigApp {
  Name : string;
  Ports : list Z;
  Targets : list string
}.

(** [type ProxyConfig struct { Apps []ConfigApp }] *)
Record ProxyConfig : Type := mkProxyConfig { Apps : list ConfigApp }.

(** [type Proxy struct { ctx; cancel; logger; apps; fnds; bnds; bufPool }];
    [cancel] is the key of the context it cancels. *)
Record Proxy : Type := mkProxy {
  p_ctx : context;
  p_cancel : nat;
  p_apps : list application;
  p_fnds : list nat;
  p_bnds : list nat
}.

(** What the constructors ask of the standard library and of the kernel:
    whether [net.SplitHostPort] and [net.ResolveTCPAddr] reject their
    argument, and what [unix.EpollCreate1] answers when the allocation
    counter of the store stands at [k]. *)
Record Env : Type := mkEnv {
  SplitHostPort : string -> option error;
  ResolveTCPAddr : Z -> option error;
  EpollCreate1 : nat -> result Z
}.

(** [func New()] of [pkg/epoll], returning an [Epoll] and an error *)
Definition Epoll_New (env : Env) : M (result Epoll) :=
  st <~ get ;;
  match EpollCreate1 env (next st) with
  | Err err => ret (Err (Wrap err "EpollCreate1()"))
  | Ok fd => ret (Ok (mkEpoll fd))
  end.

(** [func newBackend(ctx, logger, address, bufPool)], returning a backend and an error *)
Definition newBackend (env : Env) (ctx : context) (address : string) : M (result nat) :=
  match SplitHostPort env address with
  | Some err => ret (Err (Wrap err "SplitHostPort()"))
  | None =>
      r <~ Epoll_New env ;;
      match r with
      | Err err => ret (Err (Wrap err "New()"))
      | Ok epoller =>
          b <~ fresh ;;
          set_bnds (<[b := mkBackend ctx address false ∅ epoller 5]>) ;;;
          ret (Ok b)
      end
  end.

(** [func newFrontend(ctx, logger, port, app, bufPool)], returning a frontend and an error *)
Definition newFrontend (env : Env) (ctx : context) (port : Z) (app : application)
    : M (result nat) :=
  match ResolveTCPAddr env port with
  | Some err => ret (Err (Wrap err "ResolveTCPAddr()"))
  | None =>
      r <~ Epoll_New env ;;
      match r with
      | Err err => ret (Err (Wrap err "New()"))
      | Ok epoller =>
          f <~ fresh ;;
          set_fnds (<[f := mkFrontend ctx app port ∅ epoller]>) ;;;
          ret (Ok f)
      end
  end.

(** [nCtx, cancel := context.WithCancel(ctx)] *)
Definition context_WithCancel (ctx : context) : M (context * nat) :=
  k <~ fresh ;;
  ret (WithCancel ctx k, k).

(** [cancel()] *)
Definition call_cancel (k : nat) : M unit :=
  set_cancelled (fun s => {[k]} ∪ s).

Section NewProxy.
Variable env : Env.
(** The arguments and locals of [NewProxy] that its loops read. *)
Variables ctx nCtx : context.
Variable cancel : nat.

(** [for _, target := range configApp.Targets { ... }] *)
Fixpoint NewProxy_targets (targets : list string) (appBnds : list nat)
    : M (result (list nat)) :=
  match targets with
  | [] => ret (Ok appBnds)
  | target :: rest =>
      r <~ newBackend env ctx target ;;
      match r with
      | Err err =>
          call_cancel cancel ;;;
          ret (Err (Wrap err "newBackend()"))
      | Ok bnd => NewProxy_targets rest (appBnds ++ [bnd])
      end
  end.

(** [for _, port := range configApp.Ports { ... }] *)
Fixpoint NewProxy_ports (ports : list Z) (app : application) (fnds : list nat)
    : M (result (list nat)) :=
  match ports with
  | [] => ret (Ok fnds)
  | port :: rest =>
      r <~ newFrontend env nCtx port app ;;
      match r with
      | Err err =>
          call_cancel cancel ;;;
          ret (Err (Wrap err "newFrontend()"))
      | Ok fnd => NewProxy_ports rest app (fnds ++ [fnd])
      end
  end.

(** [for _, configApp := range config.Apps { ... }] *)
Fixpoint NewProxy_apps (configApps : list ConfigApp)
    (apps : list application) (fnds bnds : list nat) : M (result Proxy) :=
  match configApps with
  | [] => ret (Ok (mkProxy nCtx cancel apps fnds bnds))
  | configApp :: rest =>
      r <~ NewProxy_targets (Targets configApp) [] ;;
      match r with
      | Err err => ret (Err err)
      | Ok appBnds =>
          let bnds := bnds ++ appBnds in
          let app := newApplication nCtx (Name configApp) appBnds in
          let apps := apps ++ [app] in
          r' <~ NewProxy_ports (Ports configApp) app fnds ;;
          match r' with
          | Err err => ret (Err err)
          | Ok fnds => NewProxy_apps rest apps fnds bnds
          end
      end
  end.
End NewProxy.

(** [func NewProxy(ctx context.Context, logger, config ProxyConfig) (Proxy, error)] *)
Definition NewProxy (env : Env) (ctx : context) (config : ProxyConfig) : M (result Proxy) :=
  ctxs <~ context_WithCancel ctx ;;
  let '(nCtx, cancel) := ctxs in
  NewProxy_apps env ctx nCtx cancel (Apps config) [] [] [].

(** ** [pkg/epoll/epoll_linux.go]: waiting *)

Module Wait.

(** Errnos of [golang.org/x/sys/unix] on Linux. *)
Definition EINTR : Z := 4.
Definition EAGAIN : Z := 11.
Definition EWOULDBLOCK : Z := EAGAIN.
Definition ENFILE : Z := 23.
Definition EMFILE : Z := 24.
Definition ETIMEDOUT : Z := 110.

(** [err == unix.E...]: equality of an error value with an errno. *)
Definition err_is (err : error) (errno : Z) : bool :=
  match err with
  | Errno e => (e =? errno)%Z
  | _ => false
  end.

(** [func temporaryErr(err error) bool] *)
Definition temporaryErr (err : error) : bool :=
  err_is err EINTR ||
  err_is err EMFILE ||
  err_is err ENFILE ||
  err_is err EAGAIN ||
  err_is err EWOULDBLOCK ||
  err_is err ETIMEDOUT.

(** What the kernel does with one [epoll_wait]: it has these events
    ready, or it fails with this errno. *)
Inductive kernel_answer : Type :=
| Ready (evs : list EpollEvent)
| Failed (errno : Z).

(** [unix.EpollWait(epfd, events, msec)]: the kernel stores no more
    events than [events] has room for, at its front, and returns their
    number; on failure the count is -1.  Gives back the buffer, [n] and
    [err]. *)
Definition EpollWait (k : kernel_answer) (events : list EpollEvent)
    : list EpollEvent * Z * option error :=
  match k with
  | Ready evs =>
      let n := Nat.min (length evs) (length events) in
      (firstn n evs ++ skipn n events, Z.of_nat n, None)
  | Failed errno => (events, (-1)%Z, Some (Errno errno))
  end.

(** [events[:n]] *)
Definition slice_to (events : list EpollEvent) (n : Z) : list EpollEvent :=
  firstn (Z.to_nat n) events.

(** The [for { ... }] of [Wait], run against the kernel's successive
    answers; [None] when the answers run out while the loop is still
    retrying.  Gives back what [Wait] returns and the answers not
    consumed. *)
Fixpoint Wait_loop (kernel : list kernel_answer) (events : list EpollEvent)
    : option (result (list EpollEvent) * list kernel_answer) :=
  match kernel with
  | [] => None
  | k :: rest =>
      let '(events', n, err) := EpollWait k events in
      match err with
      | Some e =>
          if temporaryErr e then Wait_loop rest events'
          else Some (Err (Wrap e "EpollWait()"), rest)
      | None => Some (Ok (slice_to events' n), rest)
      end
  end.

(** [make([]unix.EpollEvent, 100)] *)
Definition make_events : list EpollEvent := repeat (mkEpollEvent 0 0) 100.

(** [func (e *Epoll) Wait() ([]unix.EpollEvent, error)] *)
Definition Wait (e : Epoll) (kernel : list kernel_answer)
    : option (result (list EpollEvent) * list kernel_answer) :=
  Wait_loop kernel make_events.

End Wait.

(** ** Vocabulary of the properties *)

(** Number of occurrences of an event in a trace. *)
Definition occurrences (e : event) (tr : list event) : nat :=
  count_occ event_eq_dec tr e.

Definition mark_closed (cv : Conn) : Conn :=
  mkConn (netConn cv) (fd cv) true (manager cv).

(** [n] calls of [Close] in a row, with what each returned. *)
Fixpoint Close_times (n : nat) (c : nat) : M (list (option error)) :=
  match n with
  | O => ret []
  | S k =>
      r <~ Conn_Close c ;;
      rs <~ Close_times k c ;;
      ret (r :: rs)
  end.

(** The empty store, and a store holding one open socket handle owned by
    frontend 0. *)
Definition empty_State : State := mkState ∅ ∅ ∅ ∅ ∅ ∅ 0 [].

Definition one_Conn : Conn :=
  mkConn (mkNetConn 7 (Some (Errno 5))) 7 false (FrontendRef 0).

Definition one_Conn_State : State := upd_conns (<[0 := one_Conn]>) empty_State.


(** The errnos that the specification calls temporary. *)
Definition temporary_errnos : list Z :=
  [Wait.EINTR; Wait.EMFILE; Wait.ENFILE; Wait.EAGAIN; Wait.EWOULDBLOCK; Wait.ETIMEDOUT].

(** A world for running the constructors: every address parses, and the
    [k]-th epoll descriptor is [100 + k]. *)
Definition sample_env : Env :=
  mkEnv (fun _ => None) (fun _ => None) (fun k => Ok (100 + Z.of_nat k)%Z).

(** The context that [main] hands to [NewProxy]:
    [signal.NotifyContext(context.Background(), ...)], whose stop function
    has key 0. *)
Definition caller_ctx : context := WithCancel Background 0.

(** The store at the call of [NewProxy]: nothing but that context. *)
Definition boot_State : State := bump empty_State.

(** [{Apps:[{Name:"a",Ports:[9000],Targets:["127.0.0.1:9001"]}]}] *)
Definition one_app_config : ProxyConfig :=
  mkProxyConfig [mkConfigApp "a" [9000%Z] ["127.0.0.1:9001"]].

(** The state a computation ends in, and its value. *)
Definition exec {A} (m : M A) (st : State) : option State :=
  match m st with Some (_, st') => Some st' | None => None end.

Definition eval {A} (m : M A) (st : State) : option A :=
  match m st with Some (a, _) => Some a | None => None end.

(** [{Apps:[{Name:"a",Ports:[9000],Targets:[three targets]}]}] *)
Definition three_target_config : ProxyConfig :=
  mkProxyConfig
    [mkConfigApp "a" [9000%Z] ["10.0.0.1:80"; "10.0.0.2:80"; "10.0.0.3:80"]].

(** A socket with descriptor [k] whose close succeeds. *)
Definition sock (k : Z) : net_Conn := mkNetConn k None.

(** A run of the proxy of [three_target_config]: the backends are built at
    addresses 2, 3, 4 and the frontend at 5.  The first and the third
    target answer their first health check and the second does not; three
    clients connect; then the second target answers a health check. *)
Definition skewed_run : M application :=
  r <~ NewProxy sample_env caller_ctx three_target_config ;;
  healthcheck_attempt 2 (Ok (sock 20)) ;;;
  healthcheck_attempt 3 (Err errDial) ;;;
  healthcheck_attempt 4 (Ok (sock 21)) ;;;
  handleNewConnection 5 (sock 30) (Ok (sock 31)) ;;;
  handleNewConnection 5 (sock 32) (Ok (sock 33)) ;;;
  handleNewConnection 5 (sock 34) (Ok (sock 35)) ;;;
  healthcheck_attempt 3 (Ok (sock 22)) ;;;
  fv <~ load_fnd 5 ;;
  ret (f_app fv).

(** Reading a connection manager of the store through the interface. *)
Definition manager_ctx (st : State) (m : manager_ref) : option context :=
  match m with
  | FrontendRef f => f_ctx <$> fnds st !! f
  | BackendRef b => b_ctx <$> bnds_heap st !! b
  end.

Definition manager_connections (st : State) (m : manager_ref) : option (gmap Z nat) :=
  match m with
  | FrontendRef f => f_connections <$> fnds st !! f
  | BackendRef b => b_connections <$> bnds_heap st !! b
  end.

Definition manager_epoller (st : State) (m : manager_ref) : option Epoll :=
  match m with
  | FrontendRef f => f_epoller <$> fnds st !! f
  | BackendRef b => b_epoller <$> bnds_heap st !! b
  end.

(** Whether the manager's context is done in this store. *)
Definition manager_Done (st : State) (m : manager_ref) : option bool :=
  Done (cancelled st) <$> manager_ctx st m.

(** A run of the proxy of [one_app_config] (backend at address 2, frontend
    at 3) in which the termination signal arrives while
    [handleNewConnection] is between building the first leg and adding it:
    the statements of [handleNewConnection] up to [newPiped], then the
    call of the caller's stop function.  Gives back the leg. *)
Definition late_add_run : M nat :=
  NewProxy sample_env caller_ctx one_app_config ;;;
  healthcheck_attempt 2 (Ok (sock 20)) ;;;
  fv <~ load_fnd 3 ;;
  r <~ createRemoteConnection (f_app fv) (Ok (sock 31)) ;;
  match r with
  | Err _ => panic
  | Ok rConn =>
      c <~ newConn (sock 30) (FrontendRef 3) ;;
      once <~ new_Once ;;
      tunneledConn <~ newPiped c rConn once ;;
      call_cancel 0 ;;;
      ret tunneledConn
  end.

(** The store in which [late_add_run] ends. *)
Definition late_add_State : State :=
  default empty_State (exec late_add_run boot_State).

Definition with_underIO (pv : PipedConn) (v : bool) : PipedConn :=
  mkPiped (conn pv) (pipeTo pv) (finalizeOnce pv) v.

(** Whether an event mask contains a flag: [mask & flag != 0]. *)
Definition mask_has (mask flag : Z) : bool := negb (Z.land mask flag =? 0)%Z.

(** [for _, event := range events { m.serveEvent(event) }] of
    [listenEpoll], with the goroutines it starts. *)
Fixpoint serveEvents (m : manager_ref) (events : list EpollEvent) : M (list goroutine) :=
  match events with
  | [] => ret []
  | event :: rest =>
      gs <~ serveEvent m event ;;
      gs' <~ serveEvents m rest ;;
      ret (gs ++ gs')
  end.

(** A run of the proxy of [one_app_config] (backend at address 2, frontend
    at 3): the target answers its first health check and one client
    connects.  Gives back the two legs of the tunnel; they are built at
    addresses 7 and 8 over the handles 5 (client, descriptor 30) and 4
    (backend, descriptor 31), with the once at 6. *)
Definition tunnel_run : M (option (nat * nat)) :=
  NewProxy sample_env caller_ctx one_app_config ;;;
  healthcheck_attempt 2 (Ok (sock 20)) ;;;
  handleNewConnection 3 (sock 30) (Ok (sock 31)).

Definition tunnel_State : State :=
  default empty_State (exec tunnel_run boot_State).

(** Whether a dial succeeded. *)
Definition succeeded {A} (dial : result A) : bool :=
  match dial with Ok _ => true | Err _ => false end.

(** The store after [setActive b t] on a backend that read as [bv]. *)
Definition setActive_effect (b : nat) (bv : backend) (t : bool) (st : State) : State :=
  if Bool.eqb (b_active bv) t then st
  else log (ChangedActive (b_addr bv) t) (upd_bnds (<[b := b_with_active bv t]>) st).

(** The effect of one health check on a backend that read as [bv]. *)
Definition healthcheck_effect (b : nat) (bv : backend) (dial : result net_Conn)
    (st : State) : State :=
  setActive_effect b bv (succeeded dial)
    match dial with
    | Ok netConn => log (TCPClose (Sysfd netConn)) st
    | Err _ => st
    end.

(** A run of the proxy of [one_app_config] (backend at address 2, frontend
    at 3) in which a health check comes between the two steps of
    [createRemoteConnection]: the target answers its first health check;
    [nextBackend] picks the backend; the target misses the next health
    check; the dial of [createConn] to the picked backend succeeds.  Gives
    back what [nextBackend] and [createConn] returned. *)
Definition stale_dial_run : M (result nat * result net_Conn) :=
  NewProxy sample_env caller_ctx one_app_config ;;;
  healthcheck_attempt 2 (Ok (sock 20)) ;;;
  fv <~ load_fnd 3 ;;
  picked <~ nextBackend (f_app fv) ;;
  healthcheck_attempt 2 (Err errDial) ;;;
  dialled <~ createConn 2 (Ok (sock 31)) ;;
  ret (picked, dialled).

(** The backend and the frontend of [tunnel_State], as the store has them. *)
Definition tunnel_backend : backend :=
  mkBackend caller_ctx "127.0.0.1:9001" true (<[31%Z := 8]> ∅) (mkEpoll 102) 5.

Definition tunnel_frontend : frontend :=
  mkFrontend (WithCancel caller_ctx 1) (mkApplication "a" [2]) 9000
             (<[30%Z := 7]> ∅) (mkEpoll 103).

(** ** The effect of the teardown operations on the store

    Each function gives the store after one call, for a store in which the
    objects read as its arguments say. *)

Definition log_unless (skip : bool) (e : event) (st : State) : State :=
  mkState (conns st) (pipes st) (onces st) (fnds st)
          (bnds_heap st) (cancelled st) (next st)
          (trace st ++ (if skip then [] else [e])).

(** After [c.Close()], when [c] read as [cv]. *)
Definition Conn_Close_effect (c : nat) (cv : Conn) (st : State) : State :=
  log_unless (closed cv) (NetClose c) (upd_conns (<[c := mark_closed cv]>) st).

(** After [m.delConn(k)]. *)
Definition delConn_effect (m : manager_ref) (k : Z) (st : State) : State :=
  match m with
  | FrontendRef f =>
      match fnds st !! f with
      | Some fv =>
          let d := Done (cancelled st) (f_ctx fv) in
          log_unless d (EpollCtlDel (epfd (f_epoller fv)) k)
            (upd_fnds (<[f := f_with_connections fv
                                (if d then f_connections fv
                                 else delete k (f_connections fv))]>) st)
      | None => st
      end
  | BackendRef b =>
      match bnds_heap st !! b with
      | Some bv =>
          let d := Done (cancelled st) (b_ctx bv) in
          log_unless d (EpollCtlDel (epfd (b_epoller bv)) k)
            (upd_bnds (<[b := b_with_connections bv
                                (if d then b_connections bv
                                 else delete k (b_connections bv))]>) st)
      | None => st
      end
  end.

(** After [p.finalize()], when [p] read as [pv], its reader as [cv] and
    its writer as [ov]. *)
Definition finalize_effect (p : nat) (pv : PipedConn) (cv ov : Conn) (st : State) : State :=
  delConn_effect (manager cv) (fd cv)
    (delConn_effect (manager ov) (fd ov)
       (Conn_Close_effect (pipeTo pv) ov
          (Conn_Close_effect (conn pv) cv
             (upd_pipes (<[p := with_underIO pv false]>)
                (log (Finalize p) st))))).

(** ** Tunnels

    The objects of one proxied connection, by address: the two legs, the
    client's and the backend's socket handle, the once they share, the
    frontend and the backend that own the handles, and the descriptors. *)
Record Tunnel : Type := mkTunnel {
  t_a : nat;
  t_b : nat;
  t_client : nat;
  t_remote : nat;
  t_once : nat;
  t_front : nat;
  t_back : nat;
  t_client_fd : Z;
  t_remote_fd : Z
}.

(** The parts of a leg and of a handle that are never written. *)
Definition wiring (pv : PipedConn) : nat * nat * nat :=
  (conn pv, pipeTo pv, finalizeOnce pv).

Definition owner (cv : Conn) : Z * manager_ref := (fd cv, manager cv).

(** The tunnel stands in a store: leg [a] reads the client and writes the
    backend, leg [b] the reverse, both hold the same once, the client's
    handle is owned by the frontend and the backend's by the backend, and
    all of these are in the store. *)
Definition stands (st : State) (t : Tunnel) : Prop :=
  wiring <$> pipes st !! t_a t = Some (t_client t, t_remote t, t_once t) /\
  wiring <$> pipes st !! t_b t = Some (t_remote t, t_client t, t_once t) /\
  owner <$> conns st !! t_client t = Some (t_client_fd t, FrontendRef (t_front t)) /\
  owner <$> conns st !! t_remote t = Some (t_remote_fd t, BackendRef (t_back t)) /\
  is_Some (fnds st !! t_front t) /\
  is_Some (bnds_heap st !! t_back t) /\
  is_Some (onces st !! t_once t) /\
  t_client t <> t_remote t /\
  t_a t <> t_b t.

(** The leg on the client's side ([true]) or on the backend's. *)
Definition leg_of (t : Tunnel) (client_side : bool) : nat :=
  if client_side then t_a t else t_b t.



(** The map a [delConn] of descriptor [k] leaves, on a manager whose
    context is done or not. *)
Definition after_delConn (done_ : bool) (k : Z) (cs : gmap Z nat) : gmap Z nat :=
  if done_ then cs else delete k cs.

(** Events that only socket closes and [epoll_ctl] calls produce. *)
Definition is_teardown_io (e : event) : bool :=
  match e with
  | NetClose _ | EpollCtlDel _ _ => true
  | _ => false
  end.

(** What [finalize], run from one side of a tunnel in the store [st], has
    done when the store is [st']: the [underIO] flag of that side's leg is
    clear, both socket handles are closed, and each manager's map is what
    [delConn] of the handle's descriptor leaves of it. *)
Definition torn_down (st st' : State) (t : Tunnel) (side : bool) : Prop :=
  underIO <$> pipes st' !! leg_of t side = Some false /\
  closed <$> conns st' !! t_client t = Some true /\
  closed <$> conns st' !! t_remote t = Some true /\
  (forall d, manager_Done st (FrontendRef (t_front t)) = Some d ->
     manager_connections st' (FrontendRef (t_front t)) =
       after_delConn d (t_client_fd t) <$> manager_connections st (FrontendRef (t_front t))) /\
  (forall d, manager_Done st (BackendRef (t_back t)) = Some d ->
     manager_connections st' (BackendRef (t_back t)) =
       after_delConn d (t_remote_fd t) <$> manager_connections st (BackendRef (t_back t))).

(** The store of [tunnel_run] before the client connects. *)
Definition healthy_State : State :=
  default empty_State
    (exec (NewProxy sample_env caller_ctx one_app_config ;;;
           healthcheck_attempt 2 (Ok (sock 20))) boot_State).

(** The tunnel of [tunnel_State]. *)
Definition sample_tunnel : Tunnel := mkTunnel 7 8 5 4 6 3 2 30 31.


(** Whether [serveConn] goes on to the finalizer: [err != nil || n == 0]. *)
Definition copy_ended (n : Z) (err : option error) : bool :=
  negb (is_nil err) || (n =? 0)%Z.

(** ** Reading backends of the store *)

(** [b.active.Load()] and [b.getConnCount()] as functions of the store,
    for a backend that is in it. *)
Definition backend_active (st : State) (b : nat) : bool :=
  default false (b_active <$> bnds_heap st !! b).

Definition backend_count (st : State) (b : nat) : Z :=
  default 0%Z ((fun bv => Z.of_nat (size (b_connections bv))) <$> bnds_heap st !! b).

(** All the backends of a list are in the store. *)
Definition backends_in (st : State) (bs : list nat) : Prop :=
  Forall (fun b => is_Some (bnds_heap st !! b)) bs.

(** The first active backend of a list, in the order of the list. *)
Fixpoint first_active (st : State) (bs : list nat) : option nat :=
  match bs with
  | [] => None
  | b :: rest => if backend_active st b then Some b else first_active st rest
  end.

(** The store in which [skewed_run] ends, and the application of its
    frontend. *)
Definition skewed_State : State :=
  default empty_State (exec skewed_run boot_State).

Definition skewed_app : application := mkApplication "a" [2; 3; 4].

(** [{Apps:[{Name:"a",Ports:[9000],Targets:[two targets]}]}] *)
Definition two_target_config : ProxyConfig :=
  mkProxyConfig [mkConfigApp "a" [9000%Z] ["10.0.0.1:80"; "10.0.0.2:80"]].



(** The store right after [NewProxy] on [one_app_config]: no health check
    has run yet. *)
Definition unchecked_State : State :=
  default empty_State
    (exec (NewProxy sample_env caller_ctx one_app_config) boot_State).

(** The frontend of [unchecked_State] and of [healthy_State], and the
    backend of [healthy_State]. *)
Definition idle_frontend : frontend :=
  mkFrontend (WithCancel caller_ctx 1) (mkApplication "a" [2]) 9000 ∅ (mkEpoll 103).

Definition idle_backend : backend :=
  mkBackend caller_ctx "127.0.0.1:9001" true ∅ (mkEpoll 102) 5.

(** The statements of [handleNewConnection] up to the first [newPiped], on
    the proxy of [one_app_config] with its target healthy: the leg (address
    7, reading the client's handle 5 with descriptor 30) is built and not
    yet added.  No context is done. *)
Definition pending_add_run : M nat :=
  NewProxy sample_env caller_ctx one_app_config ;;;
  healthcheck_attempt 2 (Ok (sock 20)) ;;;
  fv <~ load_fnd 3 ;;
  r <~ createRemoteConnection (f_app fv) (Ok (sock 31)) ;;
  match r with
  | Err _ => panic
  | Ok rConn =>
      c <~ newConn (sock 30) (FrontendRef 3) ;;
      once <~ new_Once ;;
      newPiped c rConn once
  end.

Definition pending_add_State : State :=
  default empty_State (exec pending_add_run boot_State).

(** ** Shutdown of a backend, and the proxy as a sequence of steps *)

(** [for _, conn := range b.connections { conn.Close() }], for the legs in
    the order in which the range visits them. *)
Fixpoint Close_each (legs : list nat) : M unit :=
  match legs with
  | [] => ret tt
  | p :: rest =>
      PipedConn_Close p ;;;
      Close_each rest
  end.

(** The statements of [func (b *backend) run(wg)] that follow
    [<-b.ctx.Done()]: the epoll descriptor is closed, then every leg of
    the map.  Go leaves the order of a range over a map open; [order] is
    the order taken, a permutation of the legs of the map. *)
Definition backend_run_closing (b : nat) (order : list nat) : M unit :=
  bv <~ load_bnd b ;;
  Epoll_Close (b_epoller bv) ;;;
  Close_each order.


(** One step of the running proxy: the constructor, a health check, an
    accepted client, a readiness event, a started goroutine running (with
    what its copy returns, if it copies), a cancel function called, a
    backend closing down. *)
Inductive op : Type :=
| op_NewProxy (env : Env) (ctx : context) (config : ProxyConfig)
| op_health (b : nat) (dial : result net_Conn)
| op_accept (f : nat) (netConn : net_Conn) (dial : result net_Conn)
| op_event (m : manager_ref) (event : EpollEvent)
| op_go (g : goroutine) (n : Z) (err : option error)
| op_cancel (k : nat)
| op_closing (b : nat) (order : list nat).

Definition run_op (o : op) : M unit :=
  match o with
  | op_NewProxy env ctx config => NewProxy env ctx config ;;; ret tt
  | op_health b dial => healthcheck_attempt b dial
  | op_accept f netConn dial => handleNewConnection f netConn dial ;;; ret tt
  | op_event m event => serveEvent m event ;;; ret tt
  | op_go g n err => run_goroutine g n err
  | op_cancel k => call_cancel k
  | op_closing b order => backend_run_closing b order
  end.

Fixpoint run_ops (ops : list op) : M unit :=
  match ops with
  | [] => ret tt
  | o :: rest => run_op o ;;; run_ops rest
  end.

(** A property of the store that a computation keeps. *)
Definition preserves {A} (I : State -> Prop) (m : M A) : Prop :=
  forall st a st', I st -> m st = Some (a, st') -> I st'.

(** The addresses from [next] on are unused, and the trace holds the
    underlying close of a socket handle at most once, and only if the
    handle is marked closed. *)
Definition close_once_inv (st : State) : Prop :=
  (forall c, next st <= c -> conns st !! c = None) /\
  (forall c,
     occurrences (NetClose c) (trace st) <=
       match conns st !! c with
       | Some cv => if closed cv then 1 else 0
       | None => 0
       end).

(** A life of the proxy of [one_app_config], step by step: construction,
    first health check, a client, data from the client, the termination
    signal, the backend closing down, the client's copy failing, a hang-up
    event on the backend's side. *)
Definition sample_ops : list op :=
  [ op_NewProxy sample_env caller_ctx one_app_config;
    op_health 2 (Ok (sock 20));
    op_accept 3 (sock 30) (Ok (sock 31));
    op_event (FrontendRef 3) (mkEpollEvent EPOLLIN 30);
    op_cancel 0;
    op_closing 2 [8];
    op_go (go_serveConn (FrontendRef 3) 7) 0 (Some errDial);
    op_event (BackendRef 2) (mkEpollEvent EPOLLRDHUP 31);
    op_go (go_finalizeOnce_Do 8) 0 None ].

Definition sample_ops_State : State :=
  default empty_State (exec (run_ops sample_ops) boot_State).


(** ** What [NewProxy] builds *)

(** A backend as [newBackend] leaves it: on the context given, inactive,
    with an empty map and a health-check interval of five seconds. *)
Definition built_backend (ctx : context) (st : State) (b : nat) : Prop :=
  exists address ep, bnds_heap st !! b = Some (mkBackend ctx address false ∅ ep 5).

(** A frontend as [newFrontend] leaves it: on the context given, bound to
    one of the applications listed, with an empty map. *)
Definition built_frontend (ctx : context) (apps : list application) (st : State)
    (f : nat) : Prop :=
  exists app port ep,
    In app apps /\ fnds st !! f = Some (mkFrontend ctx app port ∅ ep).

(** The numbers of targets and of ports of a configuration. *)
Definition count_targets (apps : list ConfigApp) : nat :=
  list_sum (map (fun a => length (Targets a)) apps).

Definition count_ports (apps : list ConfigApp) : nat :=
  list_sum (map (fun a => length (Ports a)) apps).

(** A world in which [net.SplitHostPort] rejects the target "bad", and a
    configuration whose second application has it. *)
Definition strict_env : Env :=
  mkEnv (fun t => if String.eqb t "bad" then Some (Errno 22) else None)
        (fun _ => None) (fun k => Ok (100 + Z.of_nat k)%Z).

Definition bad_target_config : ProxyConfig :=
  mkProxyConfig
    [mkConfigApp "a" [9000%Z] ["10.0.0.1:80"];
     mkConfigApp "b" [9001%Z] ["bad"]].

(** The store in which [NewProxy] on [bad_target_config] ends. *)
Definition failed_State : State :=
  default empty_State
    (exec (NewProxy strict_env caller_ctx bad_target_config) boot_State).

(** ** Health reports *)

(** How often a sequence of values changes, read from [prev] on. *)
Fixpoint transitions (prev : bool) (l : list bool) : nat :=
  match l with
  | [] => 0
  | x :: rest => (if Bool.eqb prev x then 0 else 1) + transitions x rest
  end.

(** The number of "changed active status" reports about an address. *)
Definition reports (addr : string) (tr : list event) : nat :=
  occurrences (ChangedActive addr true) tr + occurrences (ChangedActive addr false) tr.

(** ** Clients one after the other *)

(** Clients accepted and served one after the other: for each, the
    client's socket and the socket that the dial to the picked backend
    returns. *)
Fixpoint accept_all (f : nat) (pairs : list (net_Conn * net_Conn)) : M unit :=
  match pairs with
  | [] => ret tt
  | (netConn, rNetConn) :: rest =>
      handleNewConnection f netConn (Ok rNetConn) ;;;
      accept_all f rest
  end.

(** The descriptor of a dialled socket is in the map of neither backend. *)
Definition unused_fd (st : State) (b1 b2 : nat) (k : Z) : Prop :=
  forall b cs, In b [b1; b2] ->
               manager_connections st (BackendRef b) = Some cs -> cs !! k = None.

(** The store of [two_run] before the client connects: both backends
    healthy and without connections; and the frontend in it. *)
Definition two_healthy_State : State :=
  default empty_State
    (exec (NewProxy sample_env caller_ctx two_target_config ;;;
           healthcheck_attempt 2 (Ok (sock 20)) ;;;
           healthcheck_attempt 3 (Ok (sock 21))) boot_State).

Definition two_frontend : frontend :=
  mkFrontend (WithCancel caller_ctx 1) (mkApplication "a" [2; 3]) 9000 ∅ (mkEpoll 104).

(** Three clients, with the sockets that the dials return. *)
Definition three_clients : list (net_Conn * net_Conn) :=
  [(sock 30, sock 31); (sock 32, sock 33); (sock 34, sock 35)].
(** * Properties *)

(** ** Running the monad *)

Ltac munfold :=
  unfold set_conns, set_pipes, set_onces, set_fnds, set_bnds, set_cancelled,
         emit, load_conn, load_pipe, load_once, load_fnd, load_bnd, ctx_Done,
         fresh, lift_opt, modify, get, panic, bind, ret in *.

(** Symbolic execution of a computation on a store whose lookups are
    known from the hypotheses. *)
Ltac mcbn :=
  cbn [bind ret get modify lift_opt panic emit fresh
       set_conns set_pipes set_onces set_fnds set_bnds set_cancelled
       load_conn load_pipe load_once load_fnd load_bnd ctx_Done
       conns pipes onces fnds bnds_heap cancelled next trace
       log upd_conns upd_pipes upd_onces upd_fnds upd_bnds upd_cancelled bump
       netConn fd closed manager conn pipeTo finalizeOnce underIO
       f_ctx f_app f_laddr f_connections f_epoller
       b_ctx b_addr b_active b_connections b_epoller b_healthcheckInterval
       mark_closed f_with_connections b_with_connections b_with_active
       negb Bool.eqb is_nil orb andb fmap option_fmap option_map
       manager_ctx manager_connections manager_epoller manager_Done].

Ltac mrewrite :=
  match goal with
  | |- context [<[?k := _]> _ !! ?k] => rewrite lookup_insert_eq
  | |- context [<[?k := _]> _ !! ?j] => rewrite (lookup_insert_ne _ k j) by (congruence || lia)
  | H : ?x = Some _ |- context [?x] => rewrite H
  | H : ?x = None |- context [?x] => rewrite H
  | H : ?x = true |- context [?x] => rewrite H
  | H : ?x = false |- context [?x] => rewrite H
  end.

Ltac mrun :=
  unfold set_conns, set_pipes, set_onces, set_fnds, set_bnds, set_cancelled,
         emit, load_conn, load_pipe, load_once, load_fnd, load_bnd, ctx_Done,
         fresh, lift_opt, modify, get, panic, bind, ret;
  repeat first [progress mcbn | mrewrite].

Lemma bind_Some {A B} (m : M A) (k : A -> M B) st a st' :
  m st = Some (a, st') -> bind m k st = k a st'.
Proof. unfold bind. intros ->. reflexivity. Qed.

Ltac mnext H := rewrite (bind_Some _ _ _ _ _ H); cbv beta.

Lemma occurrences_app e tr tr' :
  occurrences e (tr ++ tr') = occurrences e tr + occurrences e tr'.
Proof. apply count_occ_app. Qed.

Lemma occurrences_one e : occurrences e [e] = 1.
Proof. unfold occurrences. rewrite count_occ_cons_eq; reflexivity. Qed.

Lemma occurrences_other e e' : e' <> e -> occurrences e [e'] = 0.
Proof. intros. unfold occurrences. rewrite count_occ_cons_neq; auto. Qed.

(** ** [Conn.Close] *)

Lemma Conn_Close_first st c cv :
  conns st !! c = Some cv -> closed cv = false ->
  Conn_Close c st =
    Some (Close_result (netConn cv),
          log (NetClose c) (upd_conns (<[c := mark_closed cv]>) st)).
Proof.
  intros Hc Hopen. unfold Conn_Close, closed_CompareAndSwap. munfold.
  rewrite Hc, Hopen. cbn. rewrite lookup_insert_eq. reflexivity.
Qed.

Lemma Conn_Close_again st c cv :
  conns st !! c = Some cv -> closed cv = true ->
  Conn_Close c st = Some (None, st).
Proof.
  intros Hc Hcl. unfold Conn_Close, closed_CompareAndSwap. munfold.
  rewrite Hc, Hcl. reflexivity.
Qed.

Lemma Close_times_closed n st c cv :
  conns st !! c = Some cv -> closed cv = true ->
  Close_times n c st = Some (repeat None n, st).
Proof.
  intros Hc Hcl. induction n as [|n IH]; [reflexivity|].
  cbn [Close_times]. rewrite (bind_Some _ _ _ _ _ (Conn_Close_again _ _ _ Hc Hcl)).
  rewrite (bind_Some _ _ _ _ _ IH). reflexivity.
Qed.

(** C7. [Conn.Close] is idempotent.  On a handle [c] of the store, a call
    of [Close] reaches the underlying [net.Conn.Close] exactly when the
    [closed] flag goes from false to true, and then returns its result; on
    a closed handle it changes nothing and returns nil.  Hence [S n] calls
    in a row leave the store as one call does, all but the first return
    nil, and the underlying close of [c] enters the trace at most once
    (not at all when [c] was closed before). *)
Theorem Conn_Close_idempotent (st : State) (c : nat) (cv : Conn) (n : nat) :
  conns st !! c = Some cv ->
  exists r st1,
    Conn_Close c st = Some (r, st1) /\
    (closed cv = false ->
       r = Close_result (netConn cv) /\
       st1 = log (NetClose c) (upd_conns (<[c := mark_closed cv]>) st)) /\
    (closed cv = true -> r = None /\ st1 = st) /\
    conns st1 !! c = Some (mark_closed cv) /\
    Close_times (S n) c st = Some (r :: repeat None n, st1) /\
    occurrences (NetClose c) (trace st1) =
      occurrences (NetClose c) (trace st) + (if closed cv then 0 else 1).
Proof.
  intros Hc. destruct (closed cv) eqn:Hcl.
  - exists None, st. split; [eapply Conn_Close_again; eauto|].
    split; [discriminate|]. split; [auto|]. split.
    { rewrite Hc. destruct cv; cbn in *; subst; reflexivity. }
    split; [|lia].
    cbn [Close_times]. rewrite (bind_Some _ _ _ _ _ (Conn_Close_again _ _ _ Hc Hcl)).
    rewrite (bind_Some _ _ _ _ _ (Close_times_closed n _ _ _ Hc Hcl)). reflexivity.
  - pose proof (Conn_Close_first _ _ _ Hc Hcl) as H1.
    eexists _, _. split; [exact H1|].
    split; [auto|]. split; [discriminate|].
    assert (Hc' : conns (log (NetClose c) (upd_conns (<[c := mark_closed cv]>) st)) !! c
                  = Some (mark_closed cv)) by (cbn; apply lookup_insert_eq).
    split; [exact Hc'|]. split.
    + cbn [Close_times]. rewrite (bind_Some _ _ _ _ _ H1).
      rewrite (bind_Some _ _ _ _ _ (Close_times_closed n _ _ _ Hc' eq_refl)).
      reflexivity.
    + cbn [log trace upd_conns]. rewrite occurrences_app, occurrences_one.
      reflexivity.
Qed.

Lemma Conn_Close_idempotent_witness :
  exists r st1,
    Conn_Close 0 one_Conn_State = Some (r, st1) /\
    (closed one_Conn = false ->
       r = Close_result (netConn one_Conn) /\
       st1 = log (NetClose 0) (upd_conns (<[0 := mark_closed one_Conn]>) one_Conn_State)) /\
    (closed one_Conn = true -> r = None /\ st1 = one_Conn_State) /\
    conns st1 !! 0 = Some (mark_closed one_Conn) /\
    Close_times 4 0 one_Conn_State = Some (r :: repeat None 3, st1) /\
    occurrences (NetClose 0) (trace st1) =
      occurrences (NetClose 0) (trace one_Conn_State) + (if closed one_Conn then 0 else 1).
Proof.
  apply (Conn_Close_idempotent one_Conn_State 0 one_Conn 3). reflexivity.
Defined.

(** ** [Epoll.Wait] *)

Import Wait.

Lemma temporaryErr_Errno e :
  temporaryErr (Errno e) = true <->
  e = EINTR \/ e = EMFILE \/ e = ENFILE \/ e = EAGAIN \/ e = EWOULDBLOCK \/ e = ETIMEDOUT.
Proof.
  unfold temporaryErr, err_is. rewrite !orb_true_iff, !Z.eqb_eq. tauto.
Qed.

Lemma Wait_loop_retry errs rest events :
  Forall (fun e => temporaryErr (Errno e) = true) errs ->
  Wait_loop (map Failed errs ++ rest) events = Wait_loop rest events.
Proof.
  induction 1 as [|e errs He _ IH]; [reflexivity|].
  cbn [map app Wait_loop EpollWait]. rewrite He. exact IH.
Qed.

Lemma length_make_events : length make_events = 100.
Proof. apply repeat_length. Qed.

Lemma Wait_loop_Ready evs rest :
  Wait_loop (Ready evs :: rest) make_events = Some (Ok (firstn 100 evs), rest).
Proof.
  cbn [Wait_loop EpollWait]. unfold slice_to. rewrite Nat2Z.id, length_make_events.
  do 3 f_equal.
  rewrite firstn_app, firstn_firstn, length_firstn.
  replace (Nat.min (length evs) 100 - Nat.min (Nat.min (length evs) 100) (length evs))
    with 0 by lia.
  rewrite Nat.min_id. cbn [firstn]. rewrite app_nil_r.
  destruct (Nat.le_gt_cases (length evs) 100).
  - rewrite Nat.min_l by lia. rewrite !firstn_all2 by lia. reflexivity.
  - rewrite Nat.min_r by lia. reflexivity.
Qed.

Lemma temporaryErr_temporary_errnos e :
  temporaryErr (Errno e) = true <-> In e temporary_errnos.
Proof.
  rewrite temporaryErr_Errno. unfold temporary_errnos. cbn [In].
  intuition congruence.
Qed.

Lemma Wait_loop_all_failed errs events :
  Forall (fun e => temporaryErr (Errno e) = true) errs ->
  Wait_loop (map Failed errs) events = None.
Proof.
  intros H. rewrite <- (app_nil_r (map Failed errs)).
  rewrite Wait_loop_retry by exact H. reflexivity.
Qed.

Lemma Wait_loop_batch kernel events r rest :
  Wait_loop kernel events = Some (Ok r, rest) -> length r <= length events.
Proof.
  revert events. induction kernel as [|k kernel IH]; intros events; [discriminate|].
  destruct k as [evs|errno]; cbn [Wait_loop EpollWait].
  - intros [= <- _]. unfold slice_to. rewrite length_firstn. lia.
  - destruct (temporaryErr (Errno errno)); [apply IH|discriminate].
Qed.

(** C9. [Epoll.Wait] returns a batch of at most 100 events, retries the
    wait system call on the temporary errnos (EINTR, EMFILE, ENFILE,
    EAGAIN, EWOULDBLOCK, ETIMEDOUT) without returning, and surfaces every
    other errno.  Let the kernel first fail with the temporary errnos
    [errs] and then answer [k]: while only those failures have come, [Wait]
    has not returned; if [k] is a set of ready events, [Wait] returns its
    first 100; if [k] is a temporary errno, [Wait] goes on with the
    answers after it; if [k] is another errno, [Wait] returns that errno
    wrapped as an error.  Whatever the kernel answers, a batch that [Wait]
    returns has at most 100 events, and [temporaryErr] holds of exactly
    the six errnos. *)
Theorem Wait_batch_retry_surface (e : Epoll) (errs : list Z) (k : kernel_answer)
    (rest : list kernel_answer) :
  Forall (fun errno => In errno temporary_errnos) errs ->
  Wait e (map Failed errs) = None /\
  match k with
  | Ready evs =>
      Wait e (map Failed errs ++ k :: rest) = Some (Ok (firstn 100 evs), rest)
  | Failed errno =>
      if temporaryErr (Errno errno)
      then Wait e (map Failed errs ++ k :: rest) = Wait e rest
      else Wait e (map Failed errs ++ k :: rest)
           = Some (Err (Wrap (Errno errno) "EpollWait()"), rest)
  end /\
  (forall kernel batch rest',
     Wait e kernel = Some (Ok batch, rest') -> length batch <= 100) /\
  (forall errno, temporaryErr (Errno errno) = true <-> In errno temporary_errnos).
Proof.
  intros Herrs.
  assert (Htemp : Forall (fun e => temporaryErr (Errno e) = true) errs).
  { eapply Forall_impl; [exact Herrs|]. intros a. apply temporaryErr_temporary_errnos. }
  unfold Wait. split; [apply Wait_loop_all_failed; exact Htemp|].
  split; [|split].
  - rewrite Wait_loop_retry by exact Htemp.
    destruct k as [evs|errno].
    + apply Wait_loop_Ready.
    + cbn [Wait_loop EpollWait]. destruct (temporaryErr (Errno errno)); reflexivity.
  - intros kernel batch rest' H. apply Wait_loop_batch in H.
    rewrite length_make_events in H. exact H.
  - apply temporaryErr_temporary_errnos.
Qed.

Lemma Wait_batch_retry_surface_witness :
  Wait (mkEpoll 3) (map Failed [4; 11]%Z) = None /\
  Wait (mkEpoll 3) (map Failed [4; 11]%Z ++ Failed 9 :: [Ready []])
    = Some (Err (Wrap (Errno 9) "EpollWait()"), [Ready []]).
Proof.
  destruct (Wait_batch_retry_surface (mkEpoll 3) [4; 11]%Z (Failed 9) [Ready []])
    as (H1 & H2 & _).
  - apply List.Forall_cons; [cbn; auto 10|].
    apply List.Forall_cons; [cbn; auto 10|]. apply List.Forall_nil.
  - split; [exact H1|exact H2].
Defined.

(** ** [nextBackend] *)

(** With no active backend the loop leaves [next] nil and [nextBackend]
    returns [errNoActiveBackend]. *)
Lemma nextBackend_range_inactive st bs mn :
  Forall (fun b => exists bv, bnds_heap st !! b = Some bv /\ b_active bv = false) bs ->
  nextBackend_range bs None mn st = Some (None, st).
Proof.
  induction 1 as [|b bs (bv & Hb & Hact) _ IH]; [reflexivity|].
  cbn [nextBackend_range]. unfold active_Load at 1. mrun. reflexivity.
Qed.

Lemma nextBackend_none_active st a :
  Forall (fun b => exists bv, bnds_heap st !! b = Some bv /\ b_active bv = false) (bnds a) ->
  nextBackend a st = Some (Err errNoActiveBackend, st).
Proof.
  intros H. unfold nextBackend.
  mnext (nextBackend_range_inactive st (bnds a) 0%Z H). reflexivity.
Qed.

(** C1 (the code departs from it).  In the store that [skewed_run] reaches,
    the three backends 2, 3, 4 of the application are all active and hold
    2, 0 and 1 connections; [nextBackend] returns backend 4, which holds
    one connection, although the active backend 3 holds none: the result
    is not a backend of minimal connection count. *)
Theorem nextBackend_skewed_not_minimal :
  exists a st,
    skewed_run boot_State = Some (a, st) /\
    bnds a = [2; 3; 4] /\
    nextBackend a st = Some (Ok 4, st) /\
    eval (active_Load 2) st = Some true /\
    eval (active_Load 3) st = Some true /\
    eval (active_Load 4) st = Some true /\
    eval (getConnCount 2) st = Some 2%Z /\
    eval (getConnCount 3) st = Some 0%Z /\
    eval (getConnCount 4) st = Some 1%Z.
Proof.
  destruct (skewed_run boot_State) as [[a st]|] eqn:E; [|vm_compute in E; discriminate].
  exists a, st. split; [reflexivity|].
  vm_compute in E. injection E as <- <-.
  repeat split; vm_compute; reflexivity.
Qed.

(** ** [addConn] *)

(** C2 (the code departs from it).  On a connection manager whose context
    is done, [addConn] closes the reader of the leg and then goes on: it
    stores the leg in the connections map under the reader's descriptor and
    issues the [epoll_ctl] that registers the descriptor. *)
Theorem addConn_after_cancel_inserts (st : State) (m : manager_ref) (p : nat)
    (pv : PipedConn) (cv : Conn) (cs : gmap Z nat) (ep : Epoll) :
  manager_Done st m = Some true ->
  manager_connections st m = Some cs ->
  manager_epoller st m = Some ep ->
  pipes st !! p = Some pv ->
  conns st !! conn pv = Some cv ->
  exists st',
    addConn m p st = Some (tt, st') /\
    conns st' !! conn pv = Some (mark_closed cv) /\
    manager_connections st' m = Some (<[fd cv := p]> cs) /\
    trace st' =
      trace st ++ (if closed cv then [] else [NetClose (conn pv)])
               ++ [EpollCtlAdd (epfd ep) (fd cv)].
Proof.
  intros Hd Hcs Hep Hp Hc.
  unfold manager_Done, manager_connections, manager_epoller, manager_ctx in *.
  destruct m as [f|b].
  - destruct (fnds st !! f) as [fv|] eqn:Hf; [|discriminate].
    cbn in Hd, Hcs, Hep. injection Hd as Hd. injection Hcs as <-. injection Hep as <-.
    unfold addConn, frontend_addConn, PipedConn_Close, PipedConn_fd, Conn_Close,
      closed_CompareAndSwap, Epoll_Add.
    destruct (closed cv) eqn:Hcl; mrun; eexists; (split; [reflexivity|]); mrun.
    + repeat split; try reflexivity.
      destruct cv; cbn in *; subst; reflexivity.
    + repeat split; try reflexivity. rewrite <- app_assoc. reflexivity.
  - destruct (bnds_heap st !! b) as [bv|] eqn:Hb; [|discriminate].
    cbn in Hd, Hcs, Hep. injection Hd as Hd. injection Hcs as <-. injection Hep as <-.
    unfold addConn, backend_addConn, PipedConn_Close, PipedConn_fd, Conn_Close,
      closed_CompareAndSwap, Epoll_Add.
    destruct (closed cv) eqn:Hcl; mrun; eexists; (split; [reflexivity|]); mrun.
    + repeat split; try reflexivity.
      destruct cv; cbn in *; subst; reflexivity.
    + repeat split; try reflexivity. rewrite <- app_assoc. reflexivity.
Qed.

Lemma addConn_after_cancel_inserts_witness :
  manager_Done late_add_State (FrontendRef 3) = Some true /\
  exists st',
    addConn (FrontendRef 3) 7 late_add_State = Some (tt, st') /\
    conns st' !! 5 = Some (mark_closed (mkConn (sock 30) 30 false (FrontendRef 3))) /\
    manager_connections st' (FrontendRef 3) = Some (<[30%Z := 7]> ∅) /\
    trace st' = trace late_add_State ++ [NetClose 5] ++ [EpollCtlAdd 103 30].
Proof.
  split; [vm_compute; reflexivity|].
  apply (addConn_after_cancel_inserts late_add_State (FrontendRef 3) 7
           (mkPiped 5 4 6 false) (mkConn (sock 30) 30 false (FrontendRef 3))
           ∅ (mkEpoll 103)); vm_compute; reflexivity.
Defined.

(** ** [NewProxy] *)

(** C3 (the code departs from it).  [NewProxy], called with the context
    [caller_ctx] on the configuration of one application with one port and
    one target, derives the context [WithCancel caller_ctx 1] and gives it
    to the frontend, but builds the backend on [caller_ctx] itself: after
    the proxy's own [cancel] the proxy's and the frontend's context are
    done and the backend's is not. *)
Theorem NewProxy_backend_keeps_caller_ctx :
  exists proxy st fv bv st',
    NewProxy sample_env caller_ctx one_app_config boot_State = Some (Ok proxy, st) /\
    p_ctx proxy = WithCancel caller_ctx 1 /\
    p_fnds proxy = [3] /\ p_bnds proxy = [2] /\
    fnds st !! 3 = Some fv /\ f_ctx fv = p_ctx proxy /\
    bnds_heap st !! 2 = Some bv /\ b_ctx bv = caller_ctx /\
    b_ctx bv <> p_ctx proxy /\
    call_cancel (p_cancel proxy) st = Some (tt, st') /\
    Done (cancelled st') (p_ctx proxy) = true /\
    Done (cancelled st') (f_ctx fv) = true /\
    Done (cancelled st') (b_ctx bv) = false.
Proof.
  destruct (NewProxy sample_env caller_ctx one_app_config boot_State)
    as [[[proxy|] st]|] eqn:E; vm_compute in E; try discriminate.
  injection E as <- <-.
  eexists _, _, _, _, _.
  split; [reflexivity|].
  repeat match goal with |- _ /\ _ => split end;
    try (vm_compute; reflexivity).
  vm_compute. discriminate.
Qed.

(** ** [serveEvent] *)

Lemma mask_has_either mask a b :
  mask_has mask (Z.lor a b) = mask_has mask a || mask_has mask b.
Proof.
  unfold mask_has. rewrite Z.land_lor_distr_r, <- negb_andb. f_equal.
  apply eq_true_iff_eq. rewrite andb_true_iff, !Z.eqb_eq. apply Z.lor_eq_0_iff.
Qed.

Lemma setUnderIO_run st p pv v :
  pipes st !! p = Some pv ->
  setUnderIO p v st =
    Some (negb (Bool.eqb (underIO pv) v),
          upd_pipes (<[p := with_underIO pv v]>) st).
Proof.
  intros Hp. unfold setUnderIO, underIO_CompareAndSwap. mrun.
  destruct st as [cs ps os fs bs cn nx tr]. cbn in Hp.
  destruct pv as [c out o u]. unfold upd_pipes, with_underIO. cbn.
  destruct u, v; cbn; try reflexivity; rewrite (insert_id _ _ _ Hp); reflexivity.
Qed.

Lemma getConnByFD_run st m cs k :
  manager_connections st m = Some cs ->
  getConnByFD m k st = Some (cs !! k, st).
Proof.
  unfold manager_connections, getConnByFD, frontend_getConnByFD, backend_getConnByFD.
  destruct m as [f|b]; mrun.
  - destruct (fnds st !! f); [|discriminate]. cbn. intros [= <-]. reflexivity.
  - destruct (bnds_heap st !! b); [|discriminate]. cbn. intros [= <-]. reflexivity.
Qed.

Lemma serveEvent_run st m ev cs :
  manager_connections st m = Some cs ->
  serveEvent m ev st = serveEvent_found m (cs !! Fd ev) ev st.
Proof.
  intros H. pose proof (getConnByFD_run st m cs (Fd ev) H) as G.
  destruct m; unfold serveEvent, frontend_serveEvent, backend_serveEvent;
    cbn [getConnByFD] in G; rewrite (bind_Some _ _ _ _ _ G); reflexivity.
Qed.

Lemma serveEvent_underIO_dropped st m ev cs p pv :
  manager_connections st m = Some cs ->
  cs !! Fd ev = Some p -> pipes st !! p = Some pv -> underIO pv = true ->
  serveEvent m ev st = Some ([], st).
Proof.
  intros Hcs Hk Hp Hu. rewrite (serveEvent_run _ _ _ _ Hcs), Hk.
  unfold serveEvent_found.
  rewrite (bind_Some _ _ _ _ _ (setUnderIO_run _ _ _ true Hp)), Hu. cbn.
  destruct st, pv; cbn in *; subst. unfold upd_pipes, with_underIO; cbn.
  rewrite (insert_id _ _ _ Hp). reflexivity.
Qed.

(** C5. [serveEvent] on a manager of the store.  An event whose descriptor
    has no leg in the connections map, or whose leg has [underIO] set, is
    dropped: nothing is started and the store is unchanged.  Otherwise
    [underIO] is set and: if the mask contains [EPOLLRDHUP] or [EPOLLHUP],
    the one goroutine started is the shared finalizer, whether or not the
    mask contains [EPOLLIN]; else, if the mask contains [EPOLLIN], the one
    goroutine started is the copy. *)
Theorem serveEvent_dispatch (st : State) (m : manager_ref) (ev : EpollEvent)
    (cs : gmap Z nat) :
  manager_connections st m = Some cs ->
  (cs !! Fd ev = None -> serveEvent m ev st = Some ([], st)) /\
  (forall p pv,
     cs !! Fd ev = Some p -> pipes st !! p = Some pv ->
     (underIO pv = true -> serveEvent m ev st = Some ([], st)) /\
     (underIO pv = false ->
      mask_has (Events ev) EPOLLRDHUP || mask_has (Events ev) EPOLLHUP = true ->
      serveEvent m ev st =
        Some ([go_finalizeOnce_Do p], upd_pipes (<[p := with_underIO pv true]>) st)) /\
     (underIO pv = false ->
      mask_has (Events ev) EPOLLRDHUP || mask_has (Events ev) EPOLLHUP = false ->
      mask_has (Events ev) EPOLLIN = true ->
      serveEvent m ev st =
        Some ([go_serveConn m p], upd_pipes (<[p := with_underIO pv true]>) st))).
Proof.
  intros Hcs. rewrite (serveEvent_run _ _ _ _ Hcs). split.
  - intros ->. reflexivity.
  - intros p pv -> Hp. unfold serveEvent_found.
    rewrite (bind_Some _ _ _ _ _ (setUnderIO_run _ _ _ true Hp)).
    fold (mask_has (Events ev) (Z.lor EPOLLHUP EPOLLRDHUP)).
    fold (mask_has (Events ev) EPOLLIN).
    rewrite mask_has_either, orb_comm.
    repeat split.
    + intros Hu. rewrite Hu. cbn.
      destruct st, pv; cbn in *; subst. unfold upd_pipes, with_underIO; cbn.
      rewrite (insert_id _ _ _ Hp). reflexivity.
    + intros Hu Hh. rewrite Hu, Hh. reflexivity.
    + intros Hu Hh Hr. rewrite Hu, Hh, Hr. reflexivity.
Qed.

Lemma serveEvent_dispatch_witness :
  serveEvent (FrontendRef 3) (mkEpollEvent (Z.lor EPOLLIN EPOLLRDHUP) 30) tunnel_State =
    Some ([go_finalizeOnce_Do 7],
          upd_pipes (<[7 := with_underIO (mkPiped 5 4 6 false) true]>) tunnel_State).
Proof.
  destruct (serveEvent_dispatch tunnel_State (FrontendRef 3)
              (mkEpollEvent (Z.lor EPOLLIN EPOLLRDHUP) 30) (<[30%Z := 7]> ∅))
    as [_ H]; [vm_compute; reflexivity|].
  destruct (H 7 (mkPiped 5 4 6 false)) as (_ & H2 & _);
    [vm_compute; reflexivity | vm_compute; reflexivity |].
  apply H2; vm_compute; reflexivity.
Defined.

Lemma serveEvents_dropped st m cs k p pv later :
  manager_connections st m = Some cs ->
  cs !! k = Some p -> pipes st !! p = Some pv -> underIO pv = true ->
  Forall (fun ev' => Fd ev' = k) later ->
  serveEvents m later st = Some ([], st).
Proof.
  intros Hcs Hk Hp Hu. induction 1 as [|ev' later Hfd _ IH]; [reflexivity|].
  cbn [serveEvents]. subst k.
  rewrite (bind_Some _ _ _ _ _ (serveEvent_underIO_dropped _ _ _ _ _ _ Hcs Hk Hp Hu)).
  rewrite (bind_Some _ _ _ _ _ IH). reflexivity.
Qed.

Lemma manager_connections_upd_pipes g st m :
  manager_connections (upd_pipes g st) m = manager_connections st m.
Proof. destruct m; reflexivity. Qed.

(** C10. An event for a registered leg with [underIO] clear whose mask
    contains none of [EPOLLIN], [EPOLLRDHUP], [EPOLLHUP] makes
    [serveEvent] set [underIO] and start nothing; [underIO] is left set,
    and each of the events for the same descriptor that [serveEvent] is
    given afterwards is dropped: nothing is started and the store stays as
    it is. *)
Theorem serveEvent_unhandled_mask_sticks (st : State) (m : manager_ref)
    (ev : EpollEvent) (cs : gmap Z nat) (p : nat) (pv : PipedConn)
    (later : list EpollEvent) :
  manager_connections st m = Some cs ->
  cs !! Fd ev = Some p ->
  pipes st !! p = Some pv ->
  underIO pv = false ->
  mask_has (Events ev) EPOLLIN = false ->
  mask_has (Events ev) EPOLLRDHUP = false ->
  mask_has (Events ev) EPOLLHUP = false ->
  Forall (fun ev' => Fd ev' = Fd ev) later ->
  let st' := upd_pipes (<[p := with_underIO pv true]>) st in
  serveEvent m ev st = Some ([], st') /\
  underIO <$> pipes st' !! p = Some true /\
  serveEvents m later st' = Some ([], st').
Proof.
  intros Hcs Hk Hp Hu Hin Hrd Hh Hl st'. split; [|split].
  - rewrite (serveEvent_run _ _ _ _ Hcs), Hk. unfold serveEvent_found.
    rewrite (bind_Some _ _ _ _ _ (setUnderIO_run _ _ _ true Hp)).
    fold (mask_has (Events ev) (Z.lor EPOLLHUP EPOLLRDHUP)).
    fold (mask_has (Events ev) EPOLLIN).
    rewrite mask_has_either, Hu, Hin, Hrd, Hh. reflexivity.
  - subst st'. cbn [pipes upd_pipes]. rewrite lookup_insert_eq. reflexivity.
  - subst st'.
    apply (serveEvents_dropped _ m cs (Fd ev) p (with_underIO pv true));
      [ rewrite manager_connections_upd_pipes; exact Hcs
      | exact Hk
      | cbn [pipes upd_pipes]; apply lookup_insert_eq
      | reflexivity
      | exact Hl ].
Qed.

Lemma serveEvent_unhandled_mask_sticks_witness :
  let ev := mkEpollEvent 0x8 30 in
  let st' := upd_pipes (<[7 := with_underIO (mkPiped 5 4 6 false) true]>) tunnel_State in
  serveEvent (FrontendRef 3) ev tunnel_State = Some ([], st') /\
  underIO <$> pipes st' !! 7 = Some true /\
  serveEvents (FrontendRef 3)
    [mkEpollEvent EPOLLIN 30; mkEpollEvent EPOLLRDHUP 30; mkEpollEvent EPOLLHUP 30] st'
    = Some ([], st').
Proof.
  apply (serveEvent_unhandled_mask_sticks tunnel_State (FrontendRef 3)
           (mkEpollEvent 0x8 30) (<[30%Z := 7]> ∅) 7 (mkPiped 5 4 6 false));
    try (vm_compute; reflexivity).
  repeat apply List.Forall_cons; try reflexivity. apply List.Forall_nil.
Defined.

(** ** The health state of a backend *)

Lemma setActive_run st b bv t :
  bnds_heap st !! b = Some bv ->
  setActive b t st = Some (tt, setActive_effect b bv t st).
Proof.
  intros Hb. unfold setActive, active_CompareAndSwap, setActive_effect. mrun.
  destruct (b_active bv), t; cbn; mrun; reflexivity.
Qed.

Lemma setActive_effect_active st b bv t :
  bnds_heap st !! b = Some bv ->
  b_active <$> bnds_heap (setActive_effect b bv t st) !! b = Some t.
Proof.
  intros Hb. unfold setActive_effect.
  destruct (Bool.eqb (b_active bv) t) eqn:E.
  - rewrite Hb. cbn. f_equal. apply eqb_prop. exact E.
  - cbn [bnds_heap log upd_bnds]. rewrite lookup_insert_eq. reflexivity.
Qed.

Lemma setActive_effect_trace st b bv t :
  trace (setActive_effect b bv t st) =
    trace st ++ (if Bool.eqb (b_active bv) t then [] else [ChangedActive (b_addr bv) t]).
Proof.
  unfold setActive_effect. destruct (Bool.eqb (b_active bv) t).
  - symmetry. apply app_nil_r.
  - reflexivity.
Qed.

Lemma b_with_active_id bv : b_with_active bv (b_active bv) = bv.
Proof. destruct bv; reflexivity. Qed.

Lemma setActive_effect_backend st b bv t :
  bnds_heap st !! b = Some bv ->
  bnds_heap (setActive_effect b bv t st) !! b = Some (b_with_active bv t).
Proof.
  intros Hb. unfold setActive_effect.
  destruct (Bool.eqb (b_active bv) t) eqn:E.
  - apply eqb_prop in E. subst t. rewrite b_with_active_id. exact Hb.
  - cbn [bnds_heap log upd_bnds]. apply lookup_insert_eq.
Qed.

Lemma healthcheck_attempt_run st b bv dial :
  bnds_heap st !! b = Some bv ->
  healthcheck_attempt b dial st = Some (tt, healthcheck_effect b bv dial st).
Proof.
  intros Hb. unfold healthcheck_attempt, healthcheck_effect.
  destruct dial as [netConn|err]; cbn [succeeded].
  - assert (E : emit (TCPClose (Sysfd netConn)) st
                = Some (tt, log (TCPClose (Sysfd netConn)) st)) by reflexivity.
    mnext E. apply setActive_run. exact Hb.
  - apply setActive_run. exact Hb.
Qed.

Lemma healthcheck_effect_backend st b bv dial :
  bnds_heap st !! b = Some bv ->
  bnds_heap (healthcheck_effect b bv dial st) !! b
    = Some (b_with_active bv (succeeded dial)).
Proof.
  intros Hb. unfold healthcheck_effect. apply setActive_effect_backend.
  destruct dial; exact Hb.
Qed.

Lemma last_cons_default {A} (l : list A) : forall x d,
  List.last (x :: l) d = List.last l x.
Proof.
  induction l as [|y l IH]; intros x d; [reflexivity|].
  change (List.last (x :: y :: l) d) with (List.last (y :: l) d).
  rewrite (IH y d), (IH y x). reflexivity.
Qed.

Lemma runHealthcheck_loop_ticks b ticks : forall st bv,
  bnds_heap st !! b = Some bv ->
  exists st',
    runHealthcheck_loop b (map case_Tick ticks) st = Some (false, st') /\
    b_active <$> bnds_heap st' !! b = Some (List.last (map succeeded ticks) (b_active bv)).
Proof.
  induction ticks as [|dial ticks IH]; intros st bv Hb.
  - exists st. split; [reflexivity|]. rewrite Hb. reflexivity.
  - cbn [map runHealthcheck_loop].
    mnext (healthcheck_attempt_run _ _ _ dial Hb).
    destruct (IH _ _ (healthcheck_effect_backend _ _ _ dial Hb)) as (st' & Hrun & Hact).
    exists st'. split; [exact Hrun|]. rewrite Hact. f_equal.
    cbn [b_active b_with_active]. symmetry. apply last_cons_default.
Qed.

(** C8, as the code has it.  A backend is built inactive.  After a connect
    attempt of [runHealthcheck] (the check at start or the check of a
    tick) its [active] flag equals the success of that attempt, so that
    after [runHealthcheck] has made its first check and the checks of any
    number of ticks the flag equals the success of the last of them; after
    a failed dial of [createConn] it is false; a successful dial of
    [createConn] leaves the store, and with it the flag, as it was.  The
    "changed active status" report is made exactly when the stored value
    changes: the trace grows by that one report if the flag had the other
    value, and by no report if it had the value already. *)
Theorem backend_active_follows_checks (st : State) (b : nat) (bv : backend) :
  bnds_heap st !! b = Some bv ->
  (forall env ctx address st0 b0 st0',
     newBackend env ctx address st0 = Some (Ok b0, st0') ->
     b_active <$> bnds_heap st0' !! b0 = Some false) /\
  (forall dial, exists st',
     healthcheck_attempt b dial st = Some (tt, st') /\
     b_active <$> bnds_heap st' !! b = Some (succeeded dial) /\
     trace st' =
       trace st ++ match dial with Ok netConn => [TCPClose (Sysfd netConn)] | Err _ => [] end
                ++ (if Bool.eqb (b_active bv) (succeeded dial) then []
                    else [ChangedActive (b_addr bv) (succeeded dial)])) /\
  (forall first ticks, exists st',
     runHealthcheck b first (map case_Tick ticks) st = Some (false, st') /\
     b_active <$> bnds_heap st' !! b = Some (List.last (map succeeded ticks) (succeeded first))) /\
  (forall err, exists st',
     createConn b (Err err) st = Some (Err (Wrap err "Dial()"), st') /\
     b_active <$> bnds_heap st' !! b = Some false /\
     trace st' =
       trace st ++ (if Bool.eqb (b_active bv) false then []
                    else [ChangedActive (b_addr bv) false])) /\
  (forall netConn, createConn b (Ok netConn) st = Some (Ok netConn, st)).
Proof.
  intros Hb. split; [|split; [|split; [|split]]].
  - intros env ctx address st0 b0 st0'. unfold newBackend, Epoll_New.
    destruct (SplitHostPort env address); [discriminate|]. mrun.
    destruct (EpollCreate1 env (next st0)); mrun; [|discriminate].
    intros [= <- <-]. mrun. reflexivity.
  - intros dial. exists (healthcheck_effect b bv dial st).
    split; [apply healthcheck_attempt_run; exact Hb|].
    split; [rewrite healthcheck_effect_backend by exact Hb; reflexivity|].
    unfold healthcheck_effect. rewrite setActive_effect_trace.
    destruct dial; cbn [trace log succeeded app].
    + rewrite <- app_assoc. reflexivity.
    + reflexivity.
  - intros first ticks. unfold runHealthcheck.
    mnext (healthcheck_attempt_run _ _ _ first Hb).
    destruct (runHealthcheck_loop_ticks b ticks _ _
                (healthcheck_effect_backend _ _ _ first Hb)) as (st' & Hrun & Hact).
    exists st'. split; [exact Hrun|exact Hact].
  - intros err. eexists. unfold createConn.
    rewrite (bind_Some _ _ _ _ _ (setActive_run _ _ _ false Hb)).
    split; [reflexivity|]. split; [apply setActive_effect_active; exact Hb|].
    apply setActive_effect_trace.
  - reflexivity.
Qed.

Lemma backend_active_follows_checks_witness :
  exists st',
    healthcheck_attempt 2 (Err errDial) tunnel_State = Some (tt, st') /\
    b_active <$> bnds_heap st' !! 2 = Some false /\
    trace st' = trace tunnel_State ++ [] ++ [ChangedActive "127.0.0.1:9001" false].
Proof.
  destruct (backend_active_follows_checks tunnel_State 2 tunnel_backend) as (_ & H & _).
  - vm_compute. reflexivity.
  - exact (H (Err errDial)).
Defined.

(** C8 as stated fails: in [stale_dial_run] the most recent connect
    attempt on backend 2 is the dial of [createConn], which succeeds, and
    the backend's [active] flag is false after it. *)
Lemma active_stale_after_successful_dial :
  exists picked dialled st',
    stale_dial_run boot_State = Some ((picked, dialled), st') /\
    picked = Ok 2 /\
    succeeded dialled = true /\
    b_active <$> bnds_heap st' !! 2 = Some false /\
    b_active <$> bnds_heap st' !! 2 <> Some (succeeded dialled).
Proof.
  destruct (stale_dial_run boot_State) as [[[picked dialled] st']|] eqn:E;
    vm_compute in E; [|discriminate].
  injection E as <- <- <-.
  eexists _, _, _. split; [reflexivity|].
  split; [reflexivity|]. split; [reflexivity|].
  split; [vm_compute; reflexivity|]. vm_compute. discriminate.
Qed.

(** ** Teardown *)

Lemma State_eta st :
  mkState (conns st) (pipes st) (onces st) (fnds st) (bnds_heap st)
          (cancelled st) (next st) (trace st) = st.
Proof. destruct st; reflexivity. Qed.

Lemma mark_closed_id cv : closed cv = true -> mark_closed cv = cv.
Proof. destruct cv; cbn; intros ->; reflexivity. Qed.

Lemma Conn_Close_run st c cv :
  conns st !! c = Some cv ->
  Conn_Close c st =
    Some (if closed cv then None else Close_result (netConn cv),
          Conn_Close_effect c cv st).
Proof.
  intros Hc. destruct (closed cv) eqn:Hcl.
  - rewrite (Conn_Close_again _ _ _ Hc Hcl). do 2 f_equal.
    unfold Conn_Close_effect, log_unless, upd_conns. rewrite Hcl. cbn.
    rewrite app_nil_r, mark_closed_id by exact Hcl.
    rewrite (insert_id _ _ _ Hc). symmetry. apply State_eta.
  - rewrite (Conn_Close_first _ _ _ Hc Hcl).
    unfold Conn_Close_effect, log_unless. rewrite Hcl. reflexivity.
Qed.

Lemma f_with_connections_id fv : f_with_connections fv (f_connections fv) = fv.
Proof. destruct fv; reflexivity. Qed.

Lemma b_with_connections_id bv : b_with_connections bv (b_connections bv) = bv.
Proof. destruct bv; reflexivity. Qed.

Lemma delConn_run st m k :
  is_Some (manager_ctx st m) ->
  delConn m k st = Some (tt, delConn_effect m k st).
Proof.
  unfold manager_ctx. destruct m as [f|b]; intros [c Hc].
  - destruct (fnds st !! f) as [fv|] eqn:Hf; [|discriminate].
    unfold delConn, frontend_delConn, delConn_effect, Epoll_Del. mrun.
    destruct (Done (cancelled st) (f_ctx fv)); mrun; [|reflexivity].
    do 2 f_equal. unfold log_unless, upd_fnds. cbn.
    rewrite app_nil_r, f_with_connections_id, (insert_id _ _ _ Hf).
    symmetry. apply State_eta.
  - destruct (bnds_heap st !! b) as [bv|] eqn:Hb; [|discriminate].
    unfold delConn, backend_delConn, delConn_effect, Epoll_Del. mrun.
    destruct (Done (cancelled st) (b_ctx bv)); mrun; [|reflexivity].
    do 2 f_equal. unfold log_unless, upd_bnds. cbn.
    rewrite app_nil_r, b_with_connections_id, (insert_id _ _ _ Hb).
    symmetry. apply State_eta.
Qed.

Lemma delConn_effect_frame m k st :
  conns (delConn_effect m k st) = conns st /\
  pipes (delConn_effect m k st) = pipes st /\
  onces (delConn_effect m k st) = onces st /\
  cancelled (delConn_effect m k st) = cancelled st /\
  next (delConn_effect m k st) = next st.
Proof.
  unfold delConn_effect. destruct m as [f|b].
  - destruct (fnds st !! f); repeat split; reflexivity.
  - destruct (bnds_heap st !! b); repeat split; reflexivity.
Qed.

Lemma delConn_effect_ctx m k st m' :
  manager_ctx (delConn_effect m k st) m' = manager_ctx st m'.
Proof.
  unfold delConn_effect, manager_ctx. destruct m as [f|b], m' as [f'|b'].
  - destruct (fnds st !! f) as [fv|] eqn:Hf; [|reflexivity].
    cbn [fnds log_unless upd_fnds]. destruct (decide (f = f')) as [<-|Hne].
    + rewrite lookup_insert_eq, Hf. reflexivity.
    + rewrite lookup_insert_ne by exact Hne. reflexivity.
  - destruct (fnds st !! f); reflexivity.
  - destruct (bnds_heap st !! b); reflexivity.
  - destruct (bnds_heap st !! b) as [bv|] eqn:Hb; [|reflexivity].
    cbn [bnds_heap log_unless upd_bnds]. destruct (decide (b = b')) as [<-|Hne].
    + rewrite lookup_insert_eq, Hb. reflexivity.
    + rewrite lookup_insert_ne by exact Hne. reflexivity.
Qed.

Lemma load_pipe_run st p pv : pipes st !! p = Some pv -> load_pipe p st = Some (pv, st).
Proof. intros H. mrun. reflexivity. Qed.

Lemma load_conn_run st c cv : conns st !! c = Some cv -> load_conn c st = Some (cv, st).
Proof. intros H. mrun. reflexivity. Qed.

Lemma load_once_run st o d : onces st !! o = Some d -> load_once o st = Some (d, st).
Proof. intros H. mrun. reflexivity. Qed.

Lemma PipedConn_Close_run st p pv cv :
  pipes st !! p = Some pv ->
  conns st !! conn pv = Some cv ->
  PipedConn_Close p st =
    Some (if closed cv then None else Close_result (netConn cv),
          Conn_Close_effect (conn pv) cv st).
Proof.
  intros Hp Hc. unfold PipedConn_Close.
  mnext (load_pipe_run _ _ _ Hp). apply Conn_Close_run. exact Hc.
Qed.

Lemma finalize_run st p pv cv ov :
  pipes st !! p = Some pv ->
  conns st !! conn pv = Some cv ->
  conns st !! pipeTo pv = Some ov ->
  conn pv <> pipeTo pv ->
  is_Some (manager_ctx st (manager cv)) ->
  is_Some (manager_ctx st (manager ov)) ->
  finalize p st = Some (tt, finalize_effect p pv cv ov st).
Proof.
  intros Hp Hc Ho Hne Hmc Hmo. unfold finalize, finalize_effect.
  set (s1 := log (Finalize p) st).
  assert (E1 : emit (Finalize p) st = Some (tt, s1)) by reflexivity.
  mnext E1.
  assert (Hp1 : pipes s1 !! p = Some pv) by exact Hp.
  mnext (setUnderIO_run _ _ _ false Hp1).
  set (s2 := upd_pipes (<[p := with_underIO pv false]>) s1).
  assert (Hp2 : pipes s2 !! p = Some (with_underIO pv false))
    by (cbn; apply lookup_insert_eq).
  assert (Hc2 : conns s2 !! conn (with_underIO pv false) = Some cv) by exact Hc.
  mnext (PipedConn_Close_run _ _ _ _ Hp2 Hc2).
  cbn [conn with_underIO].
  set (s3 := Conn_Close_effect (conn pv) cv s2).
  assert (Hp3 : pipes s3 !! p = Some (with_underIO pv false)) by exact Hp2.
  mnext (load_pipe_run _ _ _ Hp3).
  cbn [pipeTo with_underIO].
  assert (Ho3 : conns s3 !! pipeTo pv = Some ov).
  { cbn. rewrite lookup_insert_ne by exact Hne. exact Ho. }
  mnext (Conn_Close_run _ _ _ Ho3).
  set (s4 := Conn_Close_effect (pipeTo pv) ov s3).
  assert (Ho4 : conns s4 !! pipeTo pv = Some (mark_closed ov))
    by (cbn; apply lookup_insert_eq).
  mnext (load_conn_run _ _ _ Ho4).
  cbn [manager fd mark_closed].
  assert (Hmo4 : is_Some (manager_ctx s4 (manager ov))) by (destruct (manager ov); exact Hmo).
  mnext (delConn_run _ _ (fd ov) Hmo4).
  set (s5 := delConn_effect (manager ov) (fd ov) s4).
  assert (Hc5 : conns s5 !! conn pv = Some (mark_closed cv)).
  { subst s5. rewrite (proj1 (delConn_effect_frame _ _ _)). cbn.
    rewrite lookup_insert_ne by (intros E; apply Hne; symmetry; exact E).
    apply lookup_insert_eq. }
  mnext (load_conn_run _ _ _ Hc5).
  cbn [manager fd mark_closed].
  apply delConn_run. subst s5. rewrite delConn_effect_ctx.
  destruct (manager cv); exact Hmc.
Qed.

Lemma occurrences_log_unless e skip e' st :
  e <> e' ->
  occurrences e (trace (log_unless skip e' st)) = occurrences e (trace st).
Proof.
  intros Hne. cbn [trace log_unless]. rewrite occurrences_app.
  destruct skip; [cbn; lia|].
  rewrite occurrences_other by (intros E; apply Hne; symmetry; exact E). lia.
Qed.

Lemma occurrences_delConn_effect e m k st :
  is_teardown_io e = false ->
  occurrences e (trace (delConn_effect m k st)) = occurrences e (trace st).
Proof.
  intros He. unfold delConn_effect. destruct m as [f|b].
  - destruct (fnds st !! f); [|reflexivity].
    cbv zeta. rewrite occurrences_log_unless; [reflexivity|].
    intros ->. discriminate.
  - destruct (bnds_heap st !! b); [|reflexivity].
    cbv zeta. rewrite occurrences_log_unless; [reflexivity|].
    intros ->. discriminate.
Qed.

Lemma occurrences_Conn_Close_effect e c cv st :
  is_teardown_io e = false ->
  occurrences e (trace (Conn_Close_effect c cv st)) = occurrences e (trace st).
Proof.
  intros He. unfold Conn_Close_effect.
  rewrite occurrences_log_unless; [reflexivity|]. intros ->. discriminate.
Qed.

Lemma occurrences_finalize_effect e p pv cv ov st :
  is_teardown_io e = false ->
  occurrences e (trace (finalize_effect p pv cv ov st)) =
    occurrences e (trace st) + occurrences e [Finalize p].
Proof.
  intros He. unfold finalize_effect.
  rewrite !occurrences_delConn_effect, !occurrences_Conn_Close_effect by exact He.
  cbn [trace upd_pipes log]. apply occurrences_app.
Qed.

Lemma delConn_effect_Done m k st m' :
  manager_Done (delConn_effect m k st) m' = manager_Done st m'.
Proof.
  unfold manager_Done.
  rewrite delConn_effect_ctx.
  destruct (delConn_effect_frame m k st) as (_ & _ & _ & -> & _). reflexivity.
Qed.

Lemma delConn_effect_connections_other m k st m' :
  m' <> m ->
  manager_connections (delConn_effect m k st) m' = manager_connections st m'.
Proof.
  intros Hne. unfold delConn_effect, manager_connections.
  destruct m as [f|b], m' as [f'|b'].
  - destruct (fnds st !! f) as [fv|] eqn:Hf; [|reflexivity].
    cbn [fnds log_unless upd_fnds]. rewrite lookup_insert_ne by congruence. reflexivity.
  - destruct (fnds st !! f); reflexivity.
  - destruct (bnds_heap st !! b); reflexivity.
  - destruct (bnds_heap st !! b) as [bv|] eqn:Hb; [|reflexivity].
    cbn [bnds_heap log_unless upd_bnds]. rewrite lookup_insert_ne by congruence. reflexivity.
Qed.

Lemma delConn_effect_connections_same m k st d :
  manager_Done st m = Some d ->
  manager_connections (delConn_effect m k st) m =
    after_delConn d k <$> manager_connections st m.
Proof.
  unfold manager_Done, manager_ctx, delConn_effect, manager_connections, after_delConn.
  destruct m as [f|b].
  - destruct (fnds st !! f) as [fv|] eqn:Hf; [|discriminate].
    cbn. intros [= <-]. rewrite lookup_insert_eq. cbn.
    destruct (Done (cancelled st) (f_ctx fv)); reflexivity.
  - destruct (bnds_heap st !! b) as [bv|] eqn:Hb; [|discriminate].
    cbn. intros [= <-]. rewrite lookup_insert_eq. cbn.
    destruct (Done (cancelled st) (b_ctx bv)); reflexivity.
Qed.

Lemma finalize_effect_frame p pv cv ov st :
  pipes (finalize_effect p pv cv ov st) = <[p := with_underIO pv false]> (pipes st) /\
  conns (finalize_effect p pv cv ov st) =
    <[pipeTo pv := mark_closed ov]> (<[conn pv := mark_closed cv]> (conns st)) /\
  onces (finalize_effect p pv cv ov st) = onces st /\
  cancelled (finalize_effect p pv cv ov st) = cancelled st /\
  next (finalize_effect p pv cv ov st) = next st.
Proof.
  unfold finalize_effect.
  destruct (delConn_effect_frame (manager cv) (fd cv)
              (delConn_effect (manager ov) (fd ov)
                 (Conn_Close_effect (pipeTo pv) ov
                    (Conn_Close_effect (conn pv) cv
                       (upd_pipes (<[p := with_underIO pv false]>) (log (Finalize p) st))))))
    as (-> & -> & -> & -> & ->).
  destruct (delConn_effect_frame (manager ov) (fd ov)
                 (Conn_Close_effect (pipeTo pv) ov
                    (Conn_Close_effect (conn pv) cv
                       (upd_pipes (<[p := with_underIO pv false]>) (log (Finalize p) st)))))
    as (-> & -> & -> & -> & ->).
  repeat split; reflexivity.
Qed.

Lemma finalize_effect_ctx p pv cv ov st m :
  manager_ctx (finalize_effect p pv cv ov st) m = manager_ctx st m.
Proof.
  unfold finalize_effect. rewrite !delConn_effect_ctx. destruct m; reflexivity.
Qed.

Lemma finalize_effect_Done p pv cv ov st m :
  manager_Done (finalize_effect p pv cv ov st) m = manager_Done st m.
Proof.
  unfold finalize_effect. rewrite !delConn_effect_Done. destruct m; reflexivity.
Qed.

(** What [finalize] leaves of the two managers' maps, when the reader's and
    the writer's manager are two managers. *)
Lemma finalize_effect_connections p pv cv ov st dc do_ :
  manager cv <> manager ov ->
  manager_Done st (manager cv) = Some dc ->
  manager_Done st (manager ov) = Some do_ ->
  manager_connections (finalize_effect p pv cv ov st) (manager cv) =
    after_delConn dc (fd cv) <$> manager_connections st (manager cv) /\
  manager_connections (finalize_effect p pv cv ov st) (manager ov) =
    after_delConn do_ (fd ov) <$> manager_connections st (manager ov).
Proof.
  intros Hne Hdc Hdo. unfold finalize_effect. split.
  - rewrite (delConn_effect_connections_same _ _ _ dc).
    + rewrite delConn_effect_connections_other by exact Hne.
      destruct (manager cv); reflexivity.
    + rewrite delConn_effect_Done. destruct (manager cv); exact Hdc.
  - rewrite delConn_effect_connections_other by congruence.
    rewrite (delConn_effect_connections_same _ _ _ do_).
    + destruct (manager ov); reflexivity.
    + destruct (manager ov); exact Hdo.
Qed.

(** ** Tunnels *)

Lemma stands_leg st t side :
  stands st t ->
  exists pv cv ov,
    pipes st !! leg_of t side = Some pv /\
    conns st !! conn pv = Some cv /\
    conns st !! pipeTo pv = Some ov /\
    conn pv <> pipeTo pv /\
    finalizeOnce pv = t_once t /\
    conn pv = (if side then t_client t else t_remote t) /\
    pipeTo pv = (if side then t_remote t else t_client t) /\
    owner cv = (if side then (t_client_fd t, FrontendRef (t_front t))
                else (t_remote_fd t, BackendRef (t_back t))) /\
    owner ov = (if side then (t_remote_fd t, BackendRef (t_back t))
                else (t_client_fd t, FrontendRef (t_front t))).
Proof.
  intros (Ha & Hb & Hc & Hr & _ & _ & _ & Hne & _).
  destruct (pipes st !! t_a t) as [pa|] eqn:Ea; [|discriminate].
  destruct (pipes st !! t_b t) as [pb|] eqn:Eb; [|discriminate].
  destruct (conns st !! t_client t) as [cv|] eqn:Ec; [|discriminate].
  destruct (conns st !! t_remote t) as [rv|] eqn:Er; [|discriminate].
  cbn [fmap option_fmap option_map] in Ha, Hb, Hc, Hr. unfold wiring in Ha, Hb.
  injection Ha as Ha1 Ha2 Ha3. injection Hb as Hb1 Hb2 Hb3.
  injection Hc as Hc. injection Hr as Hr.
  destruct side; cbn [leg_of].
  - exists pa, cv, rv. unfold owner. repeat split; congruence.
  - exists pb, rv, cv. unfold owner. repeat split; congruence.
Qed.

Lemma stands_transport st st' t :
  (forall p, wiring <$> pipes st' !! p = wiring <$> pipes st !! p) ->
  (forall c, owner <$> conns st' !! c = owner <$> conns st !! c) ->
  (forall m, manager_ctx st' m = manager_ctx st m) ->
  (forall o, is_Some (onces st !! o) -> is_Some (onces st' !! o)) ->
  stands st t -> stands st' t.
Proof.
  intros Hp Hc Hm Ho (Ha & Hb & Hcl & Hr & Hf & Hbk & Hon & Hne & Hne').
  unfold stands. rewrite !Hp, !Hc. repeat split; auto.
  - specialize (Hm (FrontendRef (t_front t))). cbn in Hm.
    apply fmap_is_Some with (f := f_ctx). rewrite Hm. apply fmap_is_Some. exact Hf.
  - specialize (Hm (BackendRef (t_back t))). cbn in Hm.
    apply fmap_is_Some with (f := b_ctx). rewrite Hm. apply fmap_is_Some. exact Hbk.
Qed.

Lemma wiring_lookup_underIO (ps : gmap nat PipedConn) p pv v q :
  ps !! p = Some pv ->
  wiring <$> <[p := with_underIO pv v]> ps !! q = wiring <$> ps !! q.
Proof.
  intros Hp. destruct (decide (p = q)) as [<-|Hne].
  - rewrite lookup_insert_eq, Hp. reflexivity.
  - rewrite lookup_insert_ne by exact Hne. reflexivity.
Qed.

Lemma owner_lookup_closed (cs : gmap nat Conn) c cv q :
  cs !! c = Some cv ->
  owner <$> <[c := mark_closed cv]> cs !! q = owner <$> cs !! q.
Proof.
  intros Hc. destruct (decide (c = q)) as [<-|Hne].
  - rewrite lookup_insert_eq, Hc. reflexivity.
  - rewrite lookup_insert_ne by exact Hne. reflexivity.
Qed.

Lemma finalize_stands st t side :
  stands st t ->
  exists st',
    finalize (leg_of t side) st = Some (tt, st') /\
    stands st' t /\
    torn_down st st' t side /\
    onces st' = onces st /\
    (forall e, is_teardown_io e = false ->
       occurrences e (trace st') =
         occurrences e (trace st) + occurrences e [Finalize (leg_of t side)]).
Proof.
  intros Hst.
  destruct (stands_leg st t side Hst)
    as (pv & cv & ov & Hp & Hc & Ho & Hne & Honce & Hconn & Hout & Hcv & Hov).
  pose proof Hst as (_ & _ & _ & _ & Hf & Hbk & _ & Hcr & _).
  assert (Hmf : is_Some (manager_ctx st (FrontendRef (t_front t))))
    by (apply fmap_is_Some; exact Hf).
  assert (Hmb : is_Some (manager_ctx st (BackendRef (t_back t))))
    by (apply fmap_is_Some; exact Hbk).
  unfold owner in Hcv, Hov.
  assert (Hmc : is_Some (manager_ctx st (manager cv)))
    by (destruct side; injection Hcv as _ ->; assumption).
  assert (Hmo : is_Some (manager_ctx st (manager ov)))
    by (destruct side; injection Hov as _ ->; assumption).
  exists (finalize_effect (leg_of t side) pv cv ov st).
  split; [apply finalize_run; assumption|].
  destruct (finalize_effect_frame (leg_of t side) pv cv ov st)
    as (Hpipes & Hconns & Honces & Hcan & _).
  assert (Ho' : <[conn pv := mark_closed cv]> (conns st) !! pipeTo pv = Some ov)
    by (rewrite lookup_insert_ne by exact Hne; exact Ho).
  split; [|split; [|split; [exact Honces|]]].
  - apply (stands_transport st); [| | | |exact Hst].
    + intros q. rewrite Hpipes. apply wiring_lookup_underIO. exact Hp.
    + intros q. rewrite Hconns.
      rewrite (owner_lookup_closed _ _ _ _ Ho').
      apply owner_lookup_closed. exact Hc.
    + intros m. apply finalize_effect_ctx.
    + intros o. rewrite Honces. auto.
  - assert (Hmne : manager cv <> manager ov)
      by (destruct side; injection Hcv as _ ->; injection Hov as _ ->; discriminate).
    unfold torn_down. rewrite Hpipes, Hconns.
    split; [rewrite lookup_insert_eq; reflexivity|].
    assert (Hcl_out : closed <$> <[pipeTo pv := mark_closed ov]>
                        (<[conn pv := mark_closed cv]> (conns st)) !! pipeTo pv = Some true)
      by (rewrite lookup_insert_eq; reflexivity).
    assert (Hcl_in : closed <$> <[pipeTo pv := mark_closed ov]>
                        (<[conn pv := mark_closed cv]> (conns st)) !! conn pv = Some true).
    { rewrite lookup_insert_ne by (intros E; apply Hne; symmetry; exact E).
      rewrite lookup_insert_eq. reflexivity. }
    split; [destruct side; [rewrite <- Hconn|rewrite <- Hout]; assumption|].
    split; [destruct side; [rewrite <- Hout|rewrite <- Hconn]; assumption|].
    destruct side.
    + injection Hcv as Hfd Hm. injection Hov as Hfd' Hm'.
      split; intros d Hd.
      * rewrite <- Hm in Hd |- *. rewrite <- Hfd.
        destruct (manager_Done st (manager ov)) as [d'|] eqn:Hd';
          [|rewrite Hm' in Hd'; unfold manager_Done in Hd';
            destruct Hmb as [x Hx]; rewrite Hx in Hd'; discriminate].
        apply (finalize_effect_connections _ pv cv ov st d d' Hmne Hd Hd').
      * rewrite <- Hm' in Hd |- *. rewrite <- Hfd'.
        destruct (manager_Done st (manager cv)) as [d'|] eqn:Hd';
          [|rewrite Hm in Hd'; unfold manager_Done in Hd';
            destruct Hmf as [x Hx]; rewrite Hx in Hd'; discriminate].
        apply (finalize_effect_connections _ pv cv ov st d' d Hmne Hd' Hd).
    + injection Hcv as Hfd Hm. injection Hov as Hfd' Hm'.
      split; intros d Hd.
      * rewrite <- Hm' in Hd |- *. rewrite <- Hfd'.
        destruct (manager_Done st (manager cv)) as [d'|] eqn:Hd';
          [|rewrite Hm in Hd'; unfold manager_Done in Hd';
            destruct Hmb as [x Hx]; rewrite Hx in Hd'; discriminate].
        apply (finalize_effect_connections _ pv cv ov st d' d Hmne Hd' Hd).
      * rewrite <- Hm in Hd |- *. rewrite <- Hfd.
        destruct (manager_Done st (manager ov)) as [d'|] eqn:Hd';
          [|rewrite Hm' in Hd'; unfold manager_Done in Hd';
            destruct Hmf as [x Hx]; rewrite Hx in Hd'; discriminate].
        apply (finalize_effect_connections _ pv cv ov st d d' Hmne Hd Hd').
  - intros e He. apply occurrences_finalize_effect. exact He.
Qed.

Lemma finalizeOnce_Do_stands (st : State) (t : Tunnel) (side d : bool) :
  stands st t ->
  onces st !! t_once t = Some d ->
  exists st',
    finalizeOnce_Do (leg_of t side) st = Some (tt, st') /\
    stands st' t /\
    onces st' !! t_once t = Some true /\
    (forall e, is_teardown_io e = false ->
       occurrences e (trace st') =
         occurrences e (trace st) + occurrences e [OnceDo (t_once t)]
         + (if d then 0 else occurrences e [Finalize (leg_of t side)])) /\
    (d = true -> st' = log (OnceDo (t_once t)) st) /\
    (d = false -> torn_down st st' t side).
Proof.
  intros Hst Hd.
  destruct (stands_leg st t side Hst) as (pv & cv & ov & Hp & _ & _ & _ & Honce & _).
  unfold finalizeOnce_Do, Once_Do.
  mnext (load_pipe_run _ _ _ Hp). rewrite Honce.
  set (st0 := log (OnceDo (t_once t)) st).
  assert (E0 : emit (OnceDo (t_once t)) st = Some (tt, st0)) by reflexivity.
  mnext E0.
  assert (Hd0 : onces st0 !! t_once t = Some d) by exact Hd.
  mnext (load_once_run _ _ _ Hd0).
  assert (Hst0 : stands st0 t) by exact Hst.
  destruct d.
  - exists st0. split; [reflexivity|]. split; [exact Hst0|]. split; [exact Hd|].
    split; [|split; [reflexivity|discriminate]].
    intros e _. cbn [st0 trace log]. rewrite occurrences_app. lia.
  - destruct (finalize_stands st0 t side Hst0) as (s1 & Hrun & Hst1 & Htd & Honces & Htr).
    mnext Hrun.
    exists (upd_onces (<[t_once t := true]>) s1).
    split; [reflexivity|]. split; [|split; [|split; [|split; [discriminate|]]]].
    + apply (stands_transport s1); [reflexivity|reflexivity| | |exact Hst1].
      * intros m. destruct m; reflexivity.
      * intros o Ho. cbn [onces upd_onces].
        destruct (decide (t_once t = o)) as [<-|Hne].
        -- rewrite lookup_insert_eq. eauto.
        -- rewrite lookup_insert_ne by exact Hne. exact Ho.
    + cbn [onces upd_onces]. apply lookup_insert_eq.
    + intros e He. cbn [trace upd_onces]. rewrite (Htr e He).
      cbn [st0 trace log]. rewrite occurrences_app. reflexivity.
    + intros _. exact Htd.
Qed.



(** ** [handleNewConnection] builds a tunnel *)

Lemma active_Load_inv st b r st' :
  active_Load b st = Some (r, st') ->
  st' = st /\ exists bv, bnds_heap st !! b = Some bv /\ r = b_active bv.
Proof.
  unfold active_Load. munfold. destruct (bnds_heap st !! b) as [bv|]; [|discriminate].
  intros [= <- <-]. eauto.
Qed.

Lemma getConnCount_inv st b r st' :
  getConnCount b st = Some (r, st') -> st' = st.
Proof.
  unfold getConnCount. munfold. destruct (bnds_heap st !! b); [|discriminate].
  intros [= _ <-]. reflexivity.
Qed.

Lemma nextBackend_range_inv bs : forall nx mn st r st',
  nextBackend_range bs nx mn st = Some (r, st') ->
  st' = st /\
  (r = nx \/ exists bk, r = Some bk /\ In bk bs /\ is_Some (bnds_heap st !! bk)).
Proof.
  induction bs as [|b bs IH]; intros nx mn st r st'; cbn [nextBackend_range].
  - intros [= <- <-]. auto.
  - unfold bind at 1. destruct (active_Load b st) as [[act s1]|] eqn:Ea; [|discriminate].
    apply active_Load_inv in Ea. destruct Ea as (-> & bv & Hbv & ->).
    assert (Hhere : forall r0 : option nat,
              r0 = Some b ->
              r0 = nx \/ exists bk, r0 = Some bk /\ In bk (b :: bs) /\
                                   is_Some (bnds_heap st !! bk)).
    { intros r0 ->. right. exists b. split; [reflexivity|]. split; [left; reflexivity|eauto]. }
    assert (Hlater : forall nx' mn' r0 s,
              nextBackend_range bs nx' mn' st = Some (r0, s) ->
              (nx' = nx \/ nx' = Some b) ->
              s = st /\
              (r0 = nx \/ exists bk, r0 = Some bk /\ In bk (b :: bs) /\
                                    is_Some (bnds_heap st !! bk))).
    { intros nx' mn' r0 s Hr Hnx'. apply IH in Hr. destruct Hr as (-> & Hr).
      split; [reflexivity|]. destruct Hr as [->|(bk & -> & Hin & Hbk)].
      - destruct Hnx' as [-> | ->]; [left; reflexivity|apply Hhere; reflexivity].
      - right. exists bk. split; [reflexivity|]. split; [right; exact Hin|exact Hbk]. }
    destruct (b_active bv).
    + destruct nx as [n0|].
      * unfold bind at 1. destruct (getConnCount b st) as [[n s2]|] eqn:Ec; [|discriminate].
        apply getConnCount_inv in Ec. subst s2.
        destruct (n <? mn)%Z; intros Hr; eapply Hlater; eauto.
      * unfold bind at 1. destruct (getConnCount b st) as [[n s2]|] eqn:Ec; [|discriminate].
        apply getConnCount_inv in Ec. subst s2.
        intros Hr; eapply Hlater; eauto.
    + intros Hr; eapply Hlater; eauto.
Qed.






(** ** [serveConn] *)

Lemma stands_underIO st t p pv v :
  pipes st !! p = Some pv ->
  stands st t ->
  stands (upd_pipes (<[p := with_underIO pv v]>) st) t.
Proof.
  intros Hp. apply stands_transport.
  - intros q. cbn [pipes upd_pipes]. apply wiring_lookup_underIO. exact Hp.
  - reflexivity.
  - intros m. destruct m; reflexivity.
  - auto.
Qed.

(** C6. The copy task of a leg of a standing tunnel, for what
    [io.CopyBuffer] returned: [serveConn] returns with the leg's [underIO]
    flag clear, and it calls the shared finalizer once if the copy
    returned an error or zero bytes and not at all otherwise.  After a
    copy of more than zero bytes without error the store differs from the
    one before in that flag only: the maps of the managers and the trace
    are as they were, and the body of [finalize] was not entered.  When
    the finalizer is called and the once is unused, the body of [finalize]
    is entered once. *)
Theorem serveConn_finalizes_iff_copy_ended (st : State) (t : Tunnel) (side d : bool)
    (m : manager_ref) (n : Z) (err : option error) :
  stands st t ->
  onces st !! t_once t = Some d ->
  exists pv st',
    pipes st !! leg_of t side = Some pv /\
    serveConn m (leg_of t side) n err st = Some (tt, st') /\
    underIO <$> pipes st' !! leg_of t side = Some false /\
    occurrences (OnceDo (t_once t)) (trace st') =
      occurrences (OnceDo (t_once t)) (trace st) + (if copy_ended n err then 1 else 0) /\
    occurrences (Finalize (leg_of t side)) (trace st') =
      occurrences (Finalize (leg_of t side)) (trace st)
      + (if copy_ended n err && negb d then 1 else 0) /\
    (err = None -> n <> 0%Z ->
     st' = upd_pipes (<[leg_of t side := with_underIO pv false]>) st /\
     trace st' = trace st /\
     forall m', manager_connections st' m' = manager_connections st m').
Proof.
  intros Hst Hd.
  destruct (stands_leg st t side Hst) as (pv & _ & _ & Hp & _).
  exists pv. unfold serveConn. fold (copy_ended n err).
  rewrite (bind_Some _ _ _ _ _ (setUnderIO_run _ _ _ false Hp)).
  set (s1 := upd_pipes (<[leg_of t side := with_underIO pv false]>) st).
  assert (Hp1 : underIO <$> pipes s1 !! leg_of t side = Some false)
    by (cbn [s1 pipes upd_pipes]; rewrite lookup_insert_eq; reflexivity).
  destruct (copy_ended n err) eqn:Hend.
  - assert (Hst1 : stands s1 t) by (apply stands_underIO; assumption).
    destruct (finalizeOnce_Do_stands s1 t side d Hst1 Hd)
      as (st' & Hrun & _ & _ & Htr & Hused & Htd).
    exists st'. split; [exact Hp|]. split; [exact Hrun|]. split; [|split; [|split]].
    + destruct d.
      * rewrite (Hused eq_refl). exact Hp1.
      * destruct (Htd eq_refl) as (Hu & _). exact Hu.
    + rewrite (Htr (OnceDo (t_once t)) eq_refl), occurrences_one.
      destruct d; [|rewrite occurrences_other by discriminate]; cbn [s1 trace upd_pipes]; lia.
    + rewrite (Htr (Finalize (leg_of t side)) eq_refl), occurrences_other by discriminate.
      destruct d; [|rewrite occurrences_one]; cbn [s1 trace upd_pipes andb negb]; lia.
    + intros -> Hn. unfold copy_ended in Hend. cbn in Hend.
      apply Z.eqb_eq in Hend. contradiction.
  - exists s1. split; [exact Hp|]. split; [reflexivity|]. split; [exact Hp1|].
    cbn [s1 trace upd_pipes andb]. split; [lia|]. split; [lia|].
    intros _ _. split; [reflexivity|]. split; [reflexivity|].
    intros m'. destruct m'; reflexivity.
Qed.

Lemma serveConn_finalizes_iff_copy_ended_witness :
  exists pv st',
    pipes tunnel_State !! 8 = Some pv /\
    serveConn (BackendRef 2) 8 0 None tunnel_State = Some (tt, st') /\
    underIO <$> pipes st' !! 8 = Some false /\
    occurrences (OnceDo 6) (trace st') = occurrences (OnceDo 6) (trace tunnel_State) + 1 /\
    occurrences (Finalize 8) (trace st') = occurrences (Finalize 8) (trace tunnel_State) + 1 /\
    (@None error = None -> 0%Z <> 0%Z ->
     st' = upd_pipes (<[8 := with_underIO pv false]>) tunnel_State /\
     trace st' = trace tunnel_State /\
     forall m', manager_connections st' m' = manager_connections tunnel_State m').
Proof.
  apply (serveConn_finalizes_iff_copy_ended tunnel_State sample_tunnel false false
           (BackendRef 2) 0 None).
  - unfold stands. repeat split; try (vm_compute; reflexivity);
      try (vm_compute; eexists; reflexivity); vm_compute; discriminate.
  - vm_compute. reflexivity.
Defined.

(** * Further properties of the code *)

(** ** [nextBackend] on any application *)

Lemma active_Load_run st b :
  is_Some (bnds_heap st !! b) ->
  active_Load b st = Some (backend_active st b, st).
Proof.
  intros [bv Hb]. unfold active_Load, backend_active. mrun. reflexivity.
Qed.

Lemma getConnCount_run st b :
  is_Some (bnds_heap st !! b) ->
  getConnCount b st = Some (backend_count st b, st).
Proof.
  intros [bv Hb]. unfold getConnCount, backend_count. mrun. reflexivity.
Qed.

(** The loop with [next] already set: it keeps [next] when no active
    backend of the rest has a count below [minConnCount], and otherwise
    ends on an active backend of the rest whose count is below it. *)
Lemma nextBackend_range_from st bs : forall b0 mn,
  backends_in st bs ->
  exists r,
    nextBackend_range bs (Some b0) mn st = Some (Some r, st) /\
    ((r = b0 /\
      Forall (fun b => backend_active st b = true -> (mn <= backend_count st b)%Z) bs) \/
     (In r bs /\ backend_active st r = true /\ (backend_count st r < mn)%Z)).
Proof.
  induction bs as [|b bs IH]; intros b0 mn Hin.
  - exists b0. split; [reflexivity|left; split; [reflexivity|constructor]].
  - apply Forall_cons in Hin. destruct Hin as [Hb Hin].
    cbn [nextBackend_range]. mnext (active_Load_run _ _ Hb).
    destruct (backend_active st b) eqn:Hact.
    + mnext (getConnCount_run _ _ Hb).
      destruct (backend_count st b <? mn)%Z eqn:Hlt.
      * destruct (IH b mn Hin) as (r & Hr & Hcase). exists r. split; [exact Hr|].
        right. destruct Hcase as [[-> _]|(Hi & Ha & Hc)].
        -- split; [left; reflexivity|]. split; [exact Hact|]. apply Z.ltb_lt. exact Hlt.
        -- split; [right; exact Hi|]. split; assumption.
      * destruct (IH b0 mn Hin) as (r & Hr & Hcase). exists r. split; [exact Hr|].
        destruct Hcase as [[-> Hall]|(Hi & Ha & Hc)].
        -- left. split; [reflexivity|]. apply List.Forall_cons; [|exact Hall].
           intros _. apply Z.ltb_ge. exact Hlt.
        -- right. split; [right; exact Hi|]. split; assumption.
    + destruct (IH b0 mn Hin) as (r & Hr & Hcase). exists r. split; [exact Hr|].
      destruct Hcase as [[-> Hall]|(Hi & Ha & Hc)].
      * left. split; [reflexivity|]. apply List.Forall_cons; [|exact Hall].
        rewrite Hact. discriminate.
      * right. split; [right; exact Hi|]. split; assumption.
Qed.

(** The whole loop: nil when no backend is active; otherwise the first
    active backend when no active backend holds fewer connections, and
    else an active backend that holds fewer connections than it. *)
Lemma nextBackend_range_first st bs : forall mn,
  backends_in st bs ->
  match first_active st bs with
  | None => nextBackend_range bs None mn st = Some (None, st)
  | Some b0 =>
      exists r,
        nextBackend_range bs None mn st = Some (Some r, st) /\
        In b0 bs /\ backend_active st b0 = true /\
        ((r = b0 /\
          Forall (fun b => backend_active st b = true ->
                           (backend_count st b0 <= backend_count st b)%Z) bs) \/
         (In r bs /\ backend_active st r = true /\
          (backend_count st r < backend_count st b0)%Z))
  end.
Proof.
  induction bs as [|b bs IH]; intros mn Hin; [reflexivity|].
  apply Forall_cons in Hin. destruct Hin as [Hb Hin].
  cbn [first_active nextBackend_range]. mnext (active_Load_run _ _ Hb).
  destruct (backend_active st b) eqn:Hact.
  - mnext (getConnCount_run _ _ Hb).
    destruct (nextBackend_range_from st bs b (backend_count st b) Hin) as (r & Hr & Hcase).
    exists r. split; [exact Hr|]. split; [left; reflexivity|]. split; [exact Hact|].
    destruct Hcase as [[-> Hall]|(Hi & Ha & Hc)].
    + left. split; [reflexivity|]. apply List.Forall_cons; [|exact Hall]. intros _. lia.
    + right. split; [right; exact Hi|]. split; assumption.
  - specialize (IH mn Hin). destruct (first_active st bs) as [b0|]; [|exact IH].
    destruct IH as (r & Hr & Hi0 & Ha0 & Hcase).
    exists r. split; [exact Hr|]. split; [right; exact Hi0|]. split; [exact Ha0|].
    destruct Hcase as [[-> Hall]|(Hi & Ha & Hc)].
    + left. split; [reflexivity|]. apply List.Forall_cons; [|exact Hall].
      rewrite Hact. discriminate.
    + right. split; [right; exact Hi|]. split; assumption.
Qed.

Lemma first_active_None st bs :
  first_active st bs = None <-> Forall (fun b => backend_active st b = false) bs.
Proof.
  induction bs as [|b bs IH]; cbn [first_active].
  - split; [constructor|reflexivity].
  - destruct (backend_active st b) eqn:Hact.
    + split; [discriminate|]. intros H. apply Forall_cons in H. destruct H as [H _]. congruence.
    + rewrite IH. split.
      * intros H. apply List.Forall_cons; assumption.
      * intros H. apply Forall_cons in H. tauto.
Qed.

(** X1. [nextBackend] on an application whose backends are in the store
    leaves the store as it is and returns either a backend of the
    application that is active, or [errNoActiveBackend], the latter exactly
    when no backend of the application is active. *)
Theorem nextBackend_active_member_or_error (st : State) (a : application) :
  backends_in st (bnds a) ->
  exists r,
    nextBackend a st = Some (r, st) /\
    match r with
    | Ok b => In b (bnds a) /\ backend_active st b = true
    | Err e =>
        e = errNoActiveBackend /\
        Forall (fun b => backend_active st b = false) (bnds a)
    end.
Proof.
  intros Hin. unfold nextBackend.
  pose proof (nextBackend_range_first st (bnds a) 0%Z Hin) as H.
  destruct (first_active st (bnds a)) as [b0|] eqn:Hfirst.
  - destruct H as (r & Hr & Hi0 & Ha0 & Hcase). exists (Ok r). mnext Hr.
    split; [reflexivity|].
    destruct Hcase as [[-> _]|(Hi & Ha & _)]; split; assumption.
  - exists (Err errNoActiveBackend). mnext H. split; [reflexivity|].
    split; [reflexivity|]. apply first_active_None. exact Hfirst.
Qed.

(** X2. When some backend of the application is active, [nextBackend]
    returns the first active backend if no active backend holds fewer
    connections than it; otherwise it returns an active backend that
    holds fewer connections than the first active one.  In both cases the
    backend returned holds no more connections than the first active
    backend. *)
Theorem nextBackend_not_above_first_active (st : State) (a : application) (b0 : nat) :
  backends_in st (bnds a) ->
  first_active st (bnds a) = Some b0 ->
  exists b,
    nextBackend a st = Some (Ok b, st) /\
    (backend_count st b <= backend_count st b0)%Z /\
    ((b = b0 /\
      forall b', In b' (bnds a) -> backend_active st b' = true ->
                 (backend_count st b0 <= backend_count st b')%Z) \/
     (In b (bnds a) /\ backend_active st b = true /\
      (backend_count st b < backend_count st b0)%Z)).
Proof.
  intros Hin Hfirst. unfold nextBackend.
  pose proof (nextBackend_range_first st (bnds a) 0%Z Hin) as H.
  rewrite Hfirst in H. destruct H as (r & Hr & _ & _ & Hcase).
  exists r. mnext Hr. split; [reflexivity|].
  destruct Hcase as [[-> Hall]|(Hi & Ha & Hc)].
  - split; [lia|]. left. split; [reflexivity|].
    intros b' Hb'. rewrite List.Forall_forall in Hall. exact (Hall b' Hb').
  - split; [lia|]. right. split; [exact Hi|]. split; assumption.
Qed.

Lemma nextBackend_active_member_or_error_witness :
  exists r,
    nextBackend skewed_app skewed_State = Some (r, skewed_State) /\
    match r with
    | Ok b => In b (bnds skewed_app) /\ backend_active skewed_State b = true
    | Err e =>
        e = errNoActiveBackend /\
        Forall (fun b => backend_active skewed_State b = false) (bnds skewed_app)
    end.
Proof.
  apply (nextBackend_active_member_or_error skewed_State skewed_app).
  repeat apply List.Forall_cons; try apply List.Forall_nil;
    vm_compute; eexists; reflexivity.
Defined.

Lemma nextBackend_not_above_first_active_witness :
  exists b,
    nextBackend skewed_app skewed_State = Some (Ok b, skewed_State) /\
    (backend_count skewed_State b <= backend_count skewed_State 2)%Z /\
    ((b = 2 /\
      forall b', In b' (bnds skewed_app) -> backend_active skewed_State b' = true ->
                 (backend_count skewed_State 2 <= backend_count skewed_State b')%Z) \/
     (In b (bnds skewed_app) /\ backend_active skewed_State b = true /\
      (backend_count skewed_State b < backend_count skewed_State 2)%Z)).
Proof.
  apply (nextBackend_not_above_first_active skewed_State skewed_app 2).
  - repeat apply List.Forall_cons; try apply List.Forall_nil;
      vm_compute; eexists; reflexivity.
  - vm_compute. reflexivity.
Defined.



(** ** [handleNewConnection] *)

Lemma load_fnd_run st f fv : fnds st !! f = Some fv -> load_fnd f st = Some (fv, st).
Proof. intros H. mrun. reflexivity. Qed.


Lemma nextBackend_inv a st bk st' :
  nextBackend a st = Some (Ok bk, st') ->
  st' = st /\ is_Some (bnds_heap st !! bk).
Proof.
  unfold nextBackend. unfold bind at 1.
  destruct (nextBackend_range (bnds a) None 0 st) as [[r s]|] eqn:En; [|discriminate].
  apply nextBackend_range_inv in En. destruct En as (-> & Hr).
  destruct Hr as [->|(b & -> & _ & Hb)]; [discriminate|].
  intros [= <- <-]. auto.
Qed.

(** X4. A client for which a backend is picked and dialled: on a store in
    which [nextBackend] picks backend [bk] and with a dial that succeeds,
    [handleNewConnection] returns two legs; afterwards the frontend's map
    holds the first leg under the client's descriptor, the picked
    backend's map holds the second leg under the descriptor of the dialled
    socket, and the maps of all other managers are as before. *)
Theorem handleNewConnection_registers_both_legs (st : State) (f : nat) (fv : frontend)
    (bk : nat) (netConn nc : net_Conn) :
  fnds st !! f = Some fv ->
  nextBackend (f_app fv) st = Some (Ok bk, st) ->
  exists a b st1,
    handleNewConnection f netConn (Ok nc) st = Some (Some (a, b), st1) /\
    manager_connections st1 (FrontendRef f) =
      <[Sysfd netConn := a]> <$> manager_connections st (FrontendRef f) /\
    manager_connections st1 (BackendRef bk) =
      <[Sysfd nc := b]> <$> manager_connections st (BackendRef bk) /\
    (forall m, m <> FrontendRef f -> m <> BackendRef bk ->
               manager_connections st1 m = manager_connections st m).
Proof.
  intros Hf Hnext. destruct (nextBackend_inv _ _ _ _ Hnext) as [_ [bv Hbk]].
  unfold handleNewConnection, createRemoteConnection.
  mnext (load_fnd_run _ _ _ Hf).
  rewrite (bind_Some _ _ _ _ _ (bind_Some _ _ _ _ _ Hnext)). cbv beta.
  unfold manager_addConn, addConn, frontend_addConn, backend_addConn, createConn,
    newConn, new_Once, newPiped, PipedConn_Close, PipedConn_fd, Conn_Close,
    closed_CompareAndSwap, Epoll_Add, fdFromConn.
  destruct (Done (cancelled st) (f_ctx fv)) eqn:Hdf;
    destruct (Done (cancelled st) (b_ctx bv)) eqn:Hdb;
    mrun; eexists _, _, _; (split; [reflexivity|]); mrun;
    (split; [reflexivity|]); (split; [reflexivity|]);
    intros [f'|b'] Hnf Hnb; mrun; reflexivity.
Qed.

Lemma handleNewConnection_registers_both_legs_witness :
  exists a b st1,
    handleNewConnection 3 (sock 30) (Ok (sock 31)) healthy_State = Some (Some (a, b), st1) /\
    manager_connections st1 (FrontendRef 3) =
      <[Sysfd (sock 30) := a]> <$> manager_connections healthy_State (FrontendRef 3) /\
    manager_connections st1 (BackendRef 2) =
      <[Sysfd (sock 31) := b]> <$> manager_connections healthy_State (BackendRef 2) /\
    (forall m, m <> FrontendRef 3 -> m <> BackendRef 2 ->
               manager_connections st1 m = manager_connections healthy_State m).
Proof.
  apply (handleNewConnection_registers_both_legs healthy_State 3
           (mkFrontend (WithCancel caller_ctx 1) (mkApplication "a" [2]) 9000 ∅ (mkEpoll 103))
           2 (sock 30) (sock 31)); vm_compute; reflexivity.
Defined.

(** X5. A client that cannot be served.  When no backend of the
    frontend's application is active, [handleNewConnection] closes the
    client's socket and changes nothing else.  When [nextBackend] picks a
    backend and the dial to it fails, [handleNewConnection] marks that
    backend inactive, reports the change, closes the client's socket, and
    builds no socket handle and no leg; it does not try another backend. *)
Theorem handleNewConnection_gives_up (st : State) (f : nat) (fv : frontend)
    (netConn : net_Conn) :
  fnds st !! f = Some fv ->
  backends_in st (bnds (f_app fv)) ->
  (first_active st (bnds (f_app fv)) = None ->
   forall dial,
     handleNewConnection f netConn dial st =
       Some (None, log (TCPClose (Sysfd netConn)) st)) /\
  (forall bk bv err,
     nextBackend (f_app fv) st = Some (Ok bk, st) ->
     bnds_heap st !! bk = Some bv ->
     handleNewConnection f netConn (Err err) st =
       Some (None,
             log (TCPClose (Sysfd netConn))
               (log (ChangedActive (b_addr bv) false)
                  (upd_bnds (<[bk := b_with_active bv false]>) st)))).
Proof.
  intros Hf Hin. split.
  - intros Hnone dial. unfold handleNewConnection, createRemoteConnection, nextBackend.
    mnext (load_fnd_run _ _ _ Hf).
    pose proof (nextBackend_range_first st (bnds (f_app fv)) 0%Z Hin) as H.
    rewrite Hnone in H.
    rewrite (bind_Some _ _ _ _ _ (bind_Some _ _ _ _ _ (bind_Some _ _ _ _ _ H))).
    reflexivity.
  - intros bk bv err Hnext Hbk.
    destruct (nextBackend_active_member_or_error st (f_app fv) Hin) as (r & Hr & Hcase).
    rewrite Hnext in Hr. injection Hr as <-. destruct Hcase as [_ Hact].
    unfold backend_active in Hact. rewrite Hbk in Hact. cbn in Hact.
    assert (Ec : createConn bk (Err err) st =
                 Some (Err (Wrap err "Dial()"), setActive_effect bk bv false st)).
    { unfold createConn. mnext (setActive_run _ _ _ false Hbk). reflexivity. }
    assert (Er : createRemoteConnection (f_app fv) (Err err) st =
                 Some (Err (Wrap (Wrap err "Dial()") "unable to connect to remote backend"),
                       setActive_effect bk bv false st)).
    { unfold createRemoteConnection. mnext Hnext. mnext Ec. reflexivity. }
    unfold handleNewConnection.
    mnext (load_fnd_run _ _ _ Hf). mnext Er.
    cbv beta. unfold setActive_effect. rewrite Hact. reflexivity.
Qed.

Lemma handleNewConnection_gives_up_witness :
  handleNewConnection 3 (sock 30) (Ok (sock 31)) unchecked_State =
    Some (None, log (TCPClose 30) unchecked_State) /\
  handleNewConnection 3 (sock 30) (Err errDial) healthy_State =
    Some (None,
          log (TCPClose 30)
            (log (ChangedActive "127.0.0.1:9001" false)
               (upd_bnds (<[2 := b_with_active idle_backend false]>) healthy_State))).
Proof.
  split.
  - destruct (handleNewConnection_gives_up unchecked_State 3 idle_frontend (sock 30))
      as [H _].
    + vm_compute. reflexivity.
    + apply List.Forall_cons; [vm_compute; eexists; reflexivity|apply List.Forall_nil].
    + apply H. vm_compute. reflexivity.
  - destruct (handleNewConnection_gives_up healthy_State 3 idle_frontend (sock 30))
      as [_ H].
    + vm_compute. reflexivity.
    + apply List.Forall_cons; [vm_compute; eexists; reflexivity|apply List.Forall_nil].
    + apply (H 2 idle_backend errDial); vm_compute; reflexivity.
Defined.

(** ** The connection maps *)

(** X6. On a manager whose context is not done, [addConn] followed by
    [delConn] of the reader's descriptor is a round trip: after [addConn]
    the lookup of the descriptor gives the leg; after [delConn] it gives
    nil and the map is the old one without that descriptor, which is the
    old map when the descriptor was not in it.  The socket handles are
    untouched, and the two calls issue one [EPOLL_CTL_ADD] and one
    [EPOLL_CTL_DEL] for the descriptor. *)
Theorem addConn_delConn_round_trip (st : State) (m : manager_ref) (p : nat)
    (pv : PipedConn) (cv : Conn) (cs : gmap Z nat) (ep : Epoll) :
  manager_Done st m = Some false ->
  manager_connections st m = Some cs ->
  manager_epoller st m = Some ep ->
  pipes st !! p = Some pv ->
  conns st !! conn pv = Some cv ->
  exists st1 st2,
    addConn m p st = Some (tt, st1) /\
    getConnByFD m (fd cv) st1 = Some (Some p, st1) /\
    delConn m (fd cv) st1 = Some (tt, st2) /\
    getConnByFD m (fd cv) st2 = Some (None, st2) /\
    manager_connections st2 m = Some (delete (fd cv) cs) /\
    (cs !! fd cv = None -> manager_connections st2 m = Some cs) /\
    conns st2 = conns st /\
    trace st2 =
      trace st ++ [EpollCtlAdd (epfd ep) (fd cv); EpollCtlDel (epfd ep) (fd cv)].
Proof.
  intros Hd Hcs Hep Hp Hc.
  unfold manager_Done, manager_connections, manager_epoller, manager_ctx in *.
  destruct m as [f|b].
  - destruct (fnds st !! f) as [fv|] eqn:Hf; [|discriminate].
    cbn in Hd, Hcs, Hep. injection Hd as Hd. injection Hcs as <-. injection Hep as <-.
    unfold addConn, delConn, getConnByFD, frontend_addConn, frontend_delConn,
      frontend_getConnByFD, PipedConn_fd, Epoll_Add, Epoll_Del.
    mrun. eexists _, _. split; [reflexivity|]. mrun. split; [reflexivity|].
    split; [reflexivity|]. mrun. rewrite lookup_delete_eq, delete_insert_eq.
    split; [reflexivity|]. split; [reflexivity|].
    split; [intros Hnone; rewrite delete_id by exact Hnone; reflexivity|].
    split; [reflexivity|]. rewrite <- app_assoc. reflexivity.
  - destruct (bnds_heap st !! b) as [bv|] eqn:Hb; [|discriminate].
    cbn in Hd, Hcs, Hep. injection Hd as Hd. injection Hcs as <-. injection Hep as <-.
    unfold addConn, delConn, getConnByFD, backend_addConn, backend_delConn,
      backend_getConnByFD, PipedConn_fd, Epoll_Add, Epoll_Del.
    mrun. eexists _, _. split; [reflexivity|]. mrun. split; [reflexivity|].
    split; [reflexivity|]. mrun. rewrite lookup_delete_eq, delete_insert_eq.
    split; [reflexivity|]. split; [reflexivity|].
    split; [intros Hnone; rewrite delete_id by exact Hnone; reflexivity|].
    split; [reflexivity|]. rewrite <- app_assoc. reflexivity.
Qed.

Lemma addConn_delConn_round_trip_witness :
  exists st1 st2,
    addConn (FrontendRef 3) 7 pending_add_State = Some (tt, st1) /\
    getConnByFD (FrontendRef 3) 30 st1 = Some (Some 7, st1) /\
    delConn (FrontendRef 3) 30 st1 = Some (tt, st2) /\
    getConnByFD (FrontendRef 3) 30 st2 = Some (None, st2) /\
    manager_connections st2 (FrontendRef 3) = Some (delete 30%Z ∅) /\
    ((∅ : gmap Z nat) !! 30%Z = None ->
     manager_connections st2 (FrontendRef 3) = Some ∅) /\
    conns st2 = conns pending_add_State /\
    trace st2 = trace pending_add_State ++ [EpollCtlAdd 103 30; EpollCtlDel 103 30].
Proof.
  apply (addConn_delConn_round_trip pending_add_State (FrontendRef 3) 7
           (mkPiped 5 4 6 false) (mkConn (sock 30) 30 false (FrontendRef 3))
           ∅ (mkEpoll 103)); vm_compute; reflexivity.
Defined.

(** ** Readiness events in a batch *)



(** X8. A copy that moves data gives the leg back to the readiness loop.
    For a registered leg with [underIO] clear and an event whose mask
    contains [EPOLLIN] and neither hang-up flag: [serveEvent] starts the
    copy; when [serveConn] then returns from a copy of more than zero bytes
    without error, the store is again the store before the event, so that
    the next such event starts a copy again. *)
Theorem serveConn_after_data_rearms (st : State) (m : manager_ref) (cs : gmap Z nat)
    (ev : EpollEvent) (p : nat) (pv : PipedConn) (n : Z) :
  manager_connections st m = Some cs ->
  cs !! Fd ev = Some p ->
  pipes st !! p = Some pv ->
  underIO pv = false ->
  mask_has (Events ev) EPOLLIN = true ->
  mask_has (Events ev) EPOLLRDHUP = false ->
  mask_has (Events ev) EPOLLHUP = false ->
  n <> 0%Z ->
  exists st1,
    serveEvent m ev st = Some ([go_serveConn m p], st1) /\
    run_goroutine (go_serveConn m p) n None st1 = Some (tt, st).
Proof.
  intros Hcs Hk Hp Hu Hin Hrd Hh Hn.
  exists (upd_pipes (<[p := with_underIO pv true]>) st).
  assert (E : serveEvent m ev st =
              Some ([go_serveConn m p], upd_pipes (<[p := with_underIO pv true]>) st)).
  { rewrite (serveEvent_run _ _ _ _ Hcs), Hk. unfold serveEvent_found.
    mnext (setUnderIO_run _ _ _ true Hp).
    fold (mask_has (Events ev) (Z.lor EPOLLHUP EPOLLRDHUP)).
    fold (mask_has (Events ev) EPOLLIN).
    rewrite mask_has_either, Hu, Hin, Hrd, Hh. reflexivity. }
  split; [exact E|].
  cbn [run_goroutine]. unfold serveConn.
  assert (Hp1 : pipes (upd_pipes (<[p := with_underIO pv true]>) st) !! p
                = Some (with_underIO pv true)) by (cbn; apply lookup_insert_eq).
  mnext (setUnderIO_run _ _ _ false Hp1).
  apply Z.eqb_neq in Hn. rewrite Hn. cbn [is_nil negb orb ret].
  do 2 f_equal. destruct st, pv. cbn in *. subst. unfold upd_pipes, with_underIO. cbn.
  rewrite insert_insert_eq, (insert_id _ _ _ Hp). reflexivity.
Qed.

Lemma serveConn_after_data_rearms_witness :
  exists st1,
    serveEvent (BackendRef 2) (mkEpollEvent EPOLLIN 31) tunnel_State
      = Some ([go_serveConn (BackendRef 2) 8], st1) /\
    run_goroutine (go_serveConn (BackendRef 2) 8) 4096 None st1 = Some (tt, tunnel_State).
Proof.
  apply (serveConn_after_data_rearms tunnel_State (BackendRef 2) (<[31%Z := 8]> ∅)
           (mkEpollEvent EPOLLIN 31) 8 (mkPiped 4 5 6 false) 4096);
    try (vm_compute; reflexivity).
  discriminate.
Defined.

(** ** [finalize] without the once *)

Lemma mark_closed_twice cv : mark_closed (mark_closed cv) = mark_closed cv.
Proof. reflexivity. Qed.

Lemma after_delConn_twice d k (cs : gmap Z nat) :
  after_delConn d k (after_delConn d k cs) = after_delConn d k cs.
Proof. unfold after_delConn. destruct d; [reflexivity|]. apply delete_delete_eq. Qed.

Lemma stands_leg_finalize st t side :
  stands st t ->
  exists pv cv ov,
    pipes st !! leg_of t side = Some pv /\
    conns st !! conn pv = Some cv /\
    conns st !! pipeTo pv = Some ov /\
    conn pv <> pipeTo pv /\
    finalize (leg_of t side) st =
      Some (tt, finalize_effect (leg_of t side) pv cv ov st).
Proof.
  intros Hst.
  destruct (stands_leg st t side Hst)
    as (pv & cv & ov & Hp & Hc & Ho & Hne & _ & _ & _ & Hcv & Hov).
  pose proof Hst as (_ & _ & _ & _ & Hf & Hbk & _).
  assert (Hmf : is_Some (manager_ctx st (FrontendRef (t_front t))))
    by (apply fmap_is_Some; exact Hf).
  assert (Hmb : is_Some (manager_ctx st (BackendRef (t_back t))))
    by (apply fmap_is_Some; exact Hbk).
  unfold owner in Hcv, Hov.
  exists pv, cv, ov. repeat (split; [assumption|]).
  apply finalize_run; try assumption.
  - destruct side; injection Hcv as _ ->; assumption.
  - destruct side; injection Hov as _ ->; assumption.
Qed.

Lemma occurrences_NetClose_delConn_effect c m k st :
  occurrences (NetClose c) (trace (delConn_effect m k st)) =
    occurrences (NetClose c) (trace st).
Proof.
  unfold delConn_effect. destruct m as [f|b].
  - destruct (fnds st !! f); [|reflexivity].
    cbv zeta. rewrite occurrences_log_unless by discriminate. reflexivity.
  - destruct (bnds_heap st !! b); [|reflexivity].
    cbv zeta. rewrite occurrences_log_unless by discriminate. reflexivity.
Qed.

Lemma trace_Conn_Close_effect_closed c cv st :
  closed cv = true -> trace (Conn_Close_effect c cv st) = trace st.
Proof.
  intros H. unfold Conn_Close_effect. cbn [trace log_unless upd_conns].
  rewrite H. apply app_nil_r.
Qed.

(** X9. [finalize] itself is idempotent on the store, whatever guards its
    call: on a tunnel that stands, a second call of [finalize] from the
    same side returns and finds nothing left to do; the socket handles,
    the legs, the onces and both managers' maps are the same after two
    calls as after one, and no socket is closed a second time. *)
Theorem finalize_twice_same_store (st : State) (t : Tunnel) (side : bool) :
  stands st t ->
  exists st1 st2,
    finalize (leg_of t side) st = Some (tt, st1) /\
    finalize (leg_of t side) st1 = Some (tt, st2) /\
    conns st2 = conns st1 /\
    pipes st2 = pipes st1 /\
    onces st2 = onces st1 /\
    manager_connections st2 (FrontendRef (t_front t)) =
      manager_connections st1 (FrontendRef (t_front t)) /\
    manager_connections st2 (BackendRef (t_back t)) =
      manager_connections st1 (BackendRef (t_back t)) /\
    (forall c, occurrences (NetClose c) (trace st2) = occurrences (NetClose c) (trace st1)).
Proof.
  intros Hst.
  destruct (finalize_stands st t side Hst) as (st1 & Hrun1 & Hst1 & Htd1 & _ & _).
  destruct (stands_leg_finalize st t side Hst) as (pv & cv & ov & _ & _ & _ & _ & Heff).
  rewrite Hrun1 in Heff. injection Heff as Est1.
  destruct (stands_leg st1 t side Hst1)
    as (pv1 & cv1 & ov1 & Hp1 & Hc1 & Ho1 & _ & _ & Hconn1 & Hout1 & _).
  destruct (finalize_stands st1 t side Hst1) as (st2 & Hrun2 & _ & Htd2 & Honces2 & _).
  destruct (stands_leg_finalize st1 t side Hst1)
    as (pv1' & cv1' & ov1' & Hp1' & Hc1' & Ho1' & _ & Heff2).
  rewrite Hp1 in Hp1'. injection Hp1' as <-.
  rewrite Hc1 in Hc1'. injection Hc1' as <-.
  rewrite Ho1 in Ho1'. injection Ho1' as <-.
  rewrite Hrun2 in Heff2. injection Heff2 as Est2.
  exists st1, st2. split; [exact Hrun1|]. split; [exact Hrun2|].
  destruct (finalize_effect_frame (leg_of t side) pv1 cv1 ov1 st1)
    as (Hpipes & Hconns & _ & _ & _).
  rewrite <- Est2 in Hpipes, Hconns.
  destruct Htd1 as (Hu1 & Hcl_c & Hcl_r & Hmf1 & Hmb1).
  assert (Hcv1 : closed cv1 = true).
  { destruct side; [rewrite <- Hconn1 in Hcl_c; rewrite Hc1 in Hcl_c
                   |rewrite <- Hconn1 in Hcl_r; rewrite Hc1 in Hcl_r];
      cbn in *; congruence. }
  assert (Hov1 : closed ov1 = true).
  { destruct side; [rewrite <- Hout1 in Hcl_r; rewrite Ho1 in Hcl_r
                   |rewrite <- Hout1 in Hcl_c; rewrite Ho1 in Hcl_c];
      cbn in *; congruence. }
  assert (Hpv1 : underIO pv1 = false).
  { rewrite Hp1 in Hu1. cbn in Hu1. congruence. }
  pose proof Hst as (_ & _ & _ & _ & [fv Hfv] & [bv Hbv] & _).
  assert (Hdf : manager_Done st (FrontendRef (t_front t))
                = Some (Done (cancelled st) (f_ctx fv)))
    by (unfold manager_Done, manager_ctx; rewrite Hfv; reflexivity).
  assert (Hdb : manager_Done st (BackendRef (t_back t))
                = Some (Done (cancelled st) (b_ctx bv)))
    by (unfold manager_Done, manager_ctx; rewrite Hbv; reflexivity).
  destruct Htd2 as (_ & _ & _ & Hmf2 & Hmb2).
  split; [|split; [|split; [exact Honces2|split; [|split]]]].
  - rewrite Hconns, !mark_closed_id by assumption.
    rewrite (insert_id _ _ _ Hc1). apply insert_id. exact Ho1.
  - rewrite Hpipes. apply insert_id. rewrite Hp1. f_equal.
    destruct pv1; cbn in *; subst; reflexivity.
  - rewrite (Hmf2 (Done (cancelled st) (f_ctx fv))).
    + rewrite (Hmf1 _ Hdf).
      destruct (manager_connections st (FrontendRef (t_front t))); [|reflexivity].
      cbn. rewrite after_delConn_twice. reflexivity.
    + rewrite Est1, finalize_effect_Done. exact Hdf.
  - rewrite (Hmb2 (Done (cancelled st) (b_ctx bv))).
    + rewrite (Hmb1 _ Hdb).
      destruct (manager_connections st (BackendRef (t_back t))); [|reflexivity].
      cbn. rewrite after_delConn_twice. reflexivity.
    + rewrite Est1, finalize_effect_Done. exact Hdb.
  - intros c. rewrite Est2. unfold finalize_effect.
    rewrite !occurrences_NetClose_delConn_effect.
    rewrite !trace_Conn_Close_effect_closed by assumption.
    cbn [trace upd_pipes log]. rewrite occurrences_app, occurrences_other by discriminate.
    lia.
Qed.

Lemma finalize_twice_same_store_witness :
  exists st1 st2,
    finalize 7 tunnel_State = Some (tt, st1) /\
    finalize 7 st1 = Some (tt, st2) /\
    conns st2 = conns st1 /\
    pipes st2 = pipes st1 /\
    onces st2 = onces st1 /\
    manager_connections st2 (FrontendRef 3) = manager_connections st1 (FrontendRef 3) /\
    manager_connections st2 (BackendRef 2) = manager_connections st1 (BackendRef 2) /\
    (forall c, occurrences (NetClose c) (trace st2) = occurrences (NetClose c) (trace st1)).
Proof.
  apply (finalize_twice_same_store tunnel_State sample_tunnel true).
  unfold stands. repeat split; try (vm_compute; reflexivity);
    try (vm_compute; eexists; reflexivity); vm_compute; discriminate.
Defined.

(** ** Properties kept by every step *)

Lemma preserves_ret {A} I (a : A) : preserves I (ret a).
Proof. intros st a' st' H [= <- <-]. exact H. Qed.

Lemma preserves_panic {A} I : preserves I (@panic A).
Proof. intros st a st' _ E. discriminate. Qed.

Lemma preserves_bind {A B} I (m : M A) (k : A -> M B) :
  preserves I m -> (forall a, preserves I (k a)) -> preserves I (bind m k).
Proof.
  intros Hm Hk st b st' H. unfold bind.
  destruct (m st) as [[a s1]|] eqn:E; [|discriminate].
  intros E'. exact (Hk a s1 b st' (Hm st a s1 H E) E').
Qed.

Lemma preserves_modify I (f : State -> State) :
  (forall st, I st -> I (f st)) -> preserves I (modify f).
Proof. intros Hf st a st' H E. inversion E; subst. apply Hf. exact H. Qed.

Lemma preserves_get I : preserves I get.
Proof. intros st a st' H [= _ <-]. exact H. Qed.

Lemma preserves_lift_opt {A} I (o : option A) : preserves I (lift_opt o).
Proof. destruct o; [apply preserves_ret|apply preserves_panic]. Qed.

Lemma preserves_load_conn I c : preserves I (load_conn c).
Proof. apply preserves_bind; [apply preserves_get|intros; apply preserves_lift_opt]. Qed.

Lemma preserves_load_pipe I p : preserves I (load_pipe p).
Proof. apply preserves_bind; [apply preserves_get|intros; apply preserves_lift_opt]. Qed.

Lemma preserves_load_once I o : preserves I (load_once o).
Proof. apply preserves_bind; [apply preserves_get|intros; apply preserves_lift_opt]. Qed.

Lemma preserves_load_fnd I f : preserves I (load_fnd f).
Proof. apply preserves_bind; [apply preserves_get|intros; apply preserves_lift_opt]. Qed.

Lemma preserves_load_bnd I b : preserves I (load_bnd b).
Proof. apply preserves_bind; [apply preserves_get|intros; apply preserves_lift_opt]. Qed.

Lemma preserves_ctx_Done I c : preserves I (ctx_Done c).
Proof. apply preserves_bind; [apply preserves_get|intros; apply preserves_ret]. Qed.

(** The steps that neither touch the socket handles, nor allocate, nor log
    an underlying close keep [close_once_inv]. *)
Lemma close_once_inv_frame st st' :
  conns st' = conns st ->
  next st <= next st' ->
  (forall c, occurrences (NetClose c) (trace st') = occurrences (NetClose c) (trace st)) ->
  close_once_inv st -> close_once_inv st'.
Proof.
  intros Hc Hn Ht [Hfresh Hcount]. split.
  - intros c Hle. rewrite Hc. apply Hfresh. lia.
  - intros c. rewrite Hc, Ht. apply Hcount.
Qed.

Lemma close_once_emit e :
  (forall c, e <> NetClose c) -> preserves close_once_inv (emit e).
Proof.
  intros He. apply preserves_modify. intros st.
  apply close_once_inv_frame; [reflexivity|cbn; lia|].
  intros c. cbn [trace log]. rewrite occurrences_app, occurrences_other; [lia|apply He].
Qed.

Lemma close_once_set_pipes f : preserves close_once_inv (set_pipes f).
Proof.
  apply preserves_modify. intros st.
  apply close_once_inv_frame; [reflexivity|cbn; lia|reflexivity].
Qed.

Lemma close_once_set_onces f : preserves close_once_inv (set_onces f).
Proof.
  apply preserves_modify. intros st.
  apply close_once_inv_frame; [reflexivity|cbn; lia|reflexivity].
Qed.

Lemma close_once_set_fnds f : preserves close_once_inv (set_fnds f).
Proof.
  apply preserves_modify. intros st.
  apply close_once_inv_frame; [reflexivity|cbn; lia|reflexivity].
Qed.

Lemma close_once_set_bnds f : preserves close_once_inv (set_bnds f).
Proof.
  apply preserves_modify. intros st.
  apply close_once_inv_frame; [reflexivity|cbn; lia|reflexivity].
Qed.

Lemma close_once_set_cancelled f : preserves close_once_inv (set_cancelled f).
Proof.
  apply preserves_modify. intros st.
  apply close_once_inv_frame; [reflexivity|cbn; lia|reflexivity].
Qed.

Lemma close_once_fresh : preserves close_once_inv fresh.
Proof.
  intros st a st' H [= _ <-]. revert H.
  apply close_once_inv_frame; [reflexivity|cbn; lia|reflexivity].
Qed.

Lemma close_once_newConn nc m : preserves close_once_inv (newConn nc m).
Proof.
  intros st a st' [Hfresh Hcount]. unfold newConn. munfold.
  cbn [bump upd_conns conns pipes onces fnds bnds_heap cancelled next trace].
  intros [= _ <-]. split.
  - intros c Hle. cbn [conns next upd_conns bump] in *. rewrite lookup_insert_ne by lia.
    apply Hfresh. lia.
  - intros c. cbn [conns trace upd_conns bump]. destruct (decide (next st = c)) as [<-|Hne].
    + rewrite lookup_insert_eq. cbn [closed].
      specialize (Hcount (next st)). rewrite (Hfresh (next st)) in Hcount by lia. lia.
    + rewrite lookup_insert_ne by exact Hne. apply Hcount.
Qed.

Lemma close_once_Conn_Close c : preserves close_once_inv (Conn_Close c).
Proof.
  intros st a st' [Hfresh Hcount] E.
  destruct (conns st !! c) as [cv|] eqn:Hc.
  - rewrite (Conn_Close_run _ _ _ Hc) in E. injection E as _ <-.
    unfold Conn_Close_effect. split.
    + intros c' Hle. cbn. destruct (decide (c = c')) as [<-|Hne].
      * rewrite (Hfresh c Hle) in Hc. discriminate.
      * rewrite lookup_insert_ne by exact Hne. apply Hfresh. exact Hle.
    + intros c'. cbn [conns trace log_unless upd_conns]. rewrite occurrences_app.
      destruct (decide (c = c')) as [<-|Hne].
      * rewrite lookup_insert_eq. cbn [closed mark_closed].
        specialize (Hcount c). rewrite Hc in Hcount.
        destruct (closed cv); [cbn; lia|]. rewrite occurrences_one. lia.
      * rewrite lookup_insert_ne by exact Hne. specialize (Hcount c').
        destruct (closed cv); [cbn; lia|].
        rewrite occurrences_other by congruence. lia.
  - revert E. unfold Conn_Close, closed_CompareAndSwap. munfold. rewrite Hc. discriminate.
Qed.

Create HintDb keeps.

#[local] Hint Resolve preserves_ret preserves_panic preserves_get preserves_lift_opt
  preserves_load_conn preserves_load_pipe preserves_load_once preserves_load_fnd
  preserves_load_bnd preserves_ctx_Done
  close_once_set_pipes close_once_set_onces close_once_set_fnds close_once_set_bnds
  close_once_set_cancelled close_once_fresh close_once_newConn close_once_Conn_Close
  : keeps.

#[local] Hint Extern 1 (preserves close_once_inv (emit _)) =>
  apply close_once_emit; intros; discriminate : keeps.

Ltac keeps :=
  repeat first
    [ solve [auto with keeps]
    | match goal with
      | |- preserves _ (match ?x with _ => _ end) => destruct x
      | |- forall _, _ => intros ?
      end
    | apply preserves_bind ].

Lemma close_once_setUnderIO p v : preserves close_once_inv (setUnderIO p v).
Proof. unfold setUnderIO, underIO_CompareAndSwap. keeps. Qed.

Lemma close_once_newPiped c out once : preserves close_once_inv (newPiped c out once).
Proof. unfold newPiped. keeps. Qed.

Lemma close_once_new_Once : preserves close_once_inv new_Once.
Proof. unfold new_Once. keeps. Qed.

Lemma close_once_PipedConn_Close p : preserves close_once_inv (PipedConn_Close p).
Proof. unfold PipedConn_Close. keeps. Qed.

Lemma close_once_PipedConn_fd p : preserves close_once_inv (PipedConn_fd p).
Proof. unfold PipedConn_fd. keeps. Qed.

#[local] Hint Resolve close_once_setUnderIO close_once_newPiped close_once_new_Once
  close_once_PipedConn_Close close_once_PipedConn_fd : keeps.

Lemma close_once_addConn m p : preserves close_once_inv (addConn m p).
Proof.
  destruct m; unfold addConn, frontend_addConn, backend_addConn, Epoll_Add; keeps.
Qed.

Lemma close_once_delConn m k : preserves close_once_inv (delConn m k).
Proof.
  destruct m; unfold delConn, frontend_delConn, backend_delConn, Epoll_Del; keeps.
Qed.

#[local] Hint Resolve close_once_addConn close_once_delConn : keeps.

Lemma close_once_finalize p : preserves close_once_inv (finalize p).
Proof. unfold finalize. keeps. Qed.

#[local] Hint Resolve close_once_finalize : keeps.

Lemma close_once_finalizeOnce_Do p : preserves close_once_inv (finalizeOnce_Do p).
Proof. unfold finalizeOnce_Do, Once_Do. keeps. Qed.

#[local] Hint Resolve close_once_finalizeOnce_Do : keeps.

Lemma close_once_serveEvent m ev : preserves close_once_inv (serveEvent m ev).
Proof.
  destruct m; unfold serveEvent, frontend_serveEvent, backend_serveEvent,
    frontend_getConnByFD, backend_getConnByFD, serveEvent_found; keeps.
Qed.

Lemma close_once_run_goroutine g n err : preserves close_once_inv (run_goroutine g n err).
Proof. destruct g; unfold run_goroutine, serveConn; keeps. Qed.

Lemma close_once_setActive b t : preserves close_once_inv (setActive b t).
Proof. unfold setActive, active_CompareAndSwap. keeps. Qed.

#[local] Hint Resolve close_once_serveEvent close_once_run_goroutine close_once_setActive
  : keeps.

Lemma close_once_healthcheck_attempt b dial :
  preserves close_once_inv (healthcheck_attempt b dial).
Proof. unfold healthcheck_attempt. keeps. Qed.

Lemma close_once_nextBackend_range bs : forall nx mn,
  preserves close_once_inv (nextBackend_range bs nx mn).
Proof.
  induction bs as [|b bs IH]; intros nx mn; cbn [nextBackend_range];
    unfold active_Load, getConnCount; keeps.
Qed.

#[local] Hint Resolve close_once_healthcheck_attempt close_once_nextBackend_range : keeps.

Lemma close_once_handleNewConnection f netConn dial :
  preserves close_once_inv (handleNewConnection f netConn dial).
Proof.
  unfold handleNewConnection, createRemoteConnection, nextBackend, createConn,
    manager_addConn. keeps.
Qed.

Lemma close_once_call_cancel k : preserves close_once_inv (call_cancel k).
Proof. unfold call_cancel. keeps. Qed.

Lemma close_once_Close_each legs : preserves close_once_inv (Close_each legs).
Proof. induction legs as [|p legs IH]; cbn [Close_each]; keeps. Qed.

#[local] Hint Resolve close_once_handleNewConnection close_once_call_cancel
  close_once_Close_each : keeps.

Lemma close_once_backend_run_closing b order :
  preserves close_once_inv (backend_run_closing b order).
Proof. unfold backend_run_closing, Epoll_Close. keeps. Qed.

Lemma close_once_newBackend env ctx address :
  preserves close_once_inv (newBackend env ctx address).
Proof. unfold newBackend, Epoll_New. keeps. Qed.

Lemma close_once_newFrontend env ctx port app :
  preserves close_once_inv (newFrontend env ctx port app).
Proof. unfold newFrontend, Epoll_New. keeps. Qed.

#[local] Hint Resolve close_once_backend_run_closing close_once_newBackend
  close_once_newFrontend : keeps.

Lemma close_once_NewProxy_targets env ctx cancel targets : forall appBnds,
  preserves close_once_inv (NewProxy_targets env ctx cancel targets appBnds).
Proof.
  induction targets as [|t targets IH]; intros appBnds; cbn [NewProxy_targets]; keeps.
Qed.

Lemma close_once_NewProxy_ports env nCtx cancel ports : forall app fnds,
  preserves close_once_inv (NewProxy_ports env nCtx cancel ports app fnds).
Proof.
  induction ports as [|port ports IH]; intros app fnds; cbn [NewProxy_ports]; keeps.
Qed.

#[local] Hint Resolve close_once_NewProxy_targets close_once_NewProxy_ports : keeps.

Lemma close_once_NewProxy_apps env ctx nCtx cancel configApps : forall apps fnds bnds,
  preserves close_once_inv (NewProxy_apps env ctx nCtx cancel configApps apps fnds bnds).
Proof.
  induction configApps as [|ca configApps IH]; intros apps fnds bnds;
    cbn [NewProxy_apps]; keeps.
Qed.

#[local] Hint Resolve close_once_NewProxy_apps : keeps.

Lemma close_once_NewProxy env ctx config :
  preserves close_once_inv (NewProxy env ctx config).
Proof. unfold NewProxy, context_WithCancel. keeps. Qed.

#[local] Hint Resolve close_once_NewProxy : keeps.

Lemma close_once_run_op o : preserves close_once_inv (run_op o).
Proof. destruct o; cbn [run_op]; keeps. Qed.

Lemma close_once_run_ops ops : preserves close_once_inv (run_ops ops).
Proof.
  induction ops as [|o ops IH]; cbn [run_ops]; [apply preserves_ret|].
  apply preserves_bind; [apply close_once_run_op|intros _; exact IH].
Qed.

(** X10. Whatever the proxy does, it closes a socket at most once.  From
    a store that satisfies [close_once_inv] (the store at the start does),
    after any sequence of steps (construction, health checks, accepted
    clients, readiness events, copy and finalizer goroutines, cancellation,
    a backend closing down) the underlying close of every socket handle
    has been called at most once, and if it has been called the handle is
    marked closed. *)
Theorem underlying_close_at_most_once (st : State) (ops : list op) (st' : State) :
  close_once_inv st ->
  run_ops ops st = Some (tt, st') ->
  forall c,
    occurrences (NetClose c) (trace st') <= 1 /\
    (occurrences (NetClose c) (trace st') = 1 ->
     closed <$> conns st' !! c = Some true).
Proof.
  intros Hinv Hrun c.
  destruct (close_once_run_ops ops st tt st' Hinv Hrun) as [_ Hcount].
  specialize (Hcount c).
  destruct (conns st' !! c) as [cv|]; [|split; lia].
  destruct (closed cv) eqn:Hcl; split; try lia.
  intros _. cbn. rewrite Hcl. reflexivity.
Qed.

Lemma underlying_close_at_most_once_witness :
  occurrences (NetClose 4) (trace sample_ops_State) <= 1 /\
  (occurrences (NetClose 4) (trace sample_ops_State) = 1 ->
   closed <$> conns sample_ops_State !! 4 = Some true).
Proof.
  apply (underlying_close_at_most_once boot_State sample_ops sample_ops_State).
  - split; intros c; [intros _; apply lookup_empty|].
    cbn [conns boot_State bump empty_State]. rewrite lookup_empty. reflexivity.
  - vm_compute. reflexivity.
Defined.

(** ** A backend closing down *)




(** ** [NewProxy] on any configuration *)

Lemma newBackend_inv env ctx address st r st' :
  newBackend env ctx address st = Some (r, st') ->
  match r with
  | Ok b =>
      b = next st /\
      exists ep,
        st' = upd_bnds (<[next st := mkBackend ctx address false ∅ ep 5]>) (bump st)
  | Err _ => st' = st
  end.
Proof.
  unfold newBackend, Epoll_New.
  destruct (SplitHostPort env address); [intros [= <- <-]; reflexivity|].
  munfold. destruct (EpollCreate1 env (next st)) as [k|e]; cbn.
  - intros [= <- <-]. split; [reflexivity|]. eexists. reflexivity.
  - intros [= <- <-]. reflexivity.
Qed.

Lemma newFrontend_inv env ctx port app st r st' :
  newFrontend env ctx port app st = Some (r, st') ->
  match r with
  | Ok f =>
      f = next st /\
      exists ep,
        st' = upd_fnds (<[next st := mkFrontend ctx app port ∅ ep]>) (bump st)
  | Err _ => st' = st
  end.
Proof.
  unfold newFrontend, Epoll_New.
  destruct (ResolveTCPAddr env port); [intros [= <- <-]; reflexivity|].
  munfold. destruct (EpollCreate1 env (next st)) as [k|e]; cbn.
  - intros [= <- <-]. split; [reflexivity|]. eexists. reflexivity.
  - intros [= <- <-]. reflexivity.
Qed.

Lemma NewProxy_targets_inv env ctx cancel targets : forall appBnds st r st',
  NewProxy_targets env ctx cancel targets appBnds st = Some (r, st') ->
  next st <= next st' /\
  fnds st' = fnds st /\
  (forall b, b < next st -> bnds_heap st' !! b = bnds_heap st !! b) /\
  match r with
  | Ok bs =>
      cancelled st' = cancelled st /\
      exists new,
        bs = appBnds ++ new /\ length new = length targets /\
        Forall (fun b => b < next st' /\ built_backend ctx st' b) new
  | Err e => cancel ∈ cancelled st' /\ exists e', e = Wrap e' "newBackend()"
  end.
Proof.
  induction targets as [|target targets IH]; intros appBnds st r st'; cbn [NewProxy_targets].
  - intros [= <- <-]. repeat split; try lia.
    exists []. rewrite app_nil_r. repeat split. constructor.
  - unfold bind at 1.
    destruct (newBackend env ctx target st) as [[[b|e] s1]|] eqn:E; [| |discriminate].
    + apply newBackend_inv in E. destruct E as (-> & ep & ->).
      intros H. apply IH in H. cbn [next fnds bnds_heap upd_bnds bump] in H.
      destruct H as (Hn & Hf & Hkeep & Hr).
      split; [lia|]. split; [exact Hf|]. split.
      { intros b Hb. rewrite Hkeep by lia. apply lookup_insert_ne. lia. }
      destruct r as [bs|e]; [|exact Hr].
      destruct Hr as (Hc & new & -> & Hlen & Hall).
      split; [exact Hc|]. exists (next st :: new).
      split; [rewrite <- app_assoc; reflexivity|]. split; [cbn; lia|].
      apply List.Forall_cons; [|exact Hall].
      split; [lia|]. exists target, ep. rewrite Hkeep by lia. apply lookup_insert_eq.
    + apply newBackend_inv in E. subst s1. unfold call_cancel. munfold. cbn.
      intros [= <- <-]. cbn. repeat split; try lia;
        [apply elem_of_union_l, elem_of_singleton; reflexivity|eexists; reflexivity].
Qed.

Lemma NewProxy_ports_inv env nCtx cancel ports : forall app fs st r st',
  NewProxy_ports env nCtx cancel ports app fs st = Some (r, st') ->
  next st <= next st' /\
  bnds_heap st' = bnds_heap st /\
  (forall f, f < next st -> fnds st' !! f = fnds st !! f) /\
  match r with
  | Ok fs' =>
      cancelled st' = cancelled st /\
      exists new,
        fs' = fs ++ new /\ length new = length ports /\
        Forall (fun f => f < next st' /\ built_frontend nCtx [app] st' f) new
  | Err e => cancel ∈ cancelled st' /\ exists e', e = Wrap e' "newFrontend()"
  end.
Proof.
  induction ports as [|port ports IH]; intros app fs st r st'; cbn [NewProxy_ports].
  - intros [= <- <-]. repeat split; try lia.
    exists []. rewrite app_nil_r. repeat split. constructor.
  - unfold bind at 1.
    destruct (newFrontend env nCtx port app st) as [[[f|e] s1]|] eqn:E; [| |discriminate].
    + apply newFrontend_inv in E. destruct E as (-> & ep & ->).
      intros H. apply IH in H. cbn [next fnds bnds_heap upd_fnds bump] in H.
      destruct H as (Hn & Hb & Hkeep & Hr).
      split; [lia|]. split; [exact Hb|]. split.
      { intros f Hf. rewrite Hkeep by lia. apply lookup_insert_ne. lia. }
      destruct r as [fs'|e]; [|exact Hr].
      destruct Hr as (Hc & new & -> & Hlen & Hall).
      split; [exact Hc|]. exists (next st :: new).
      split; [rewrite <- app_assoc; reflexivity|]. split; [cbn; lia|].
      apply List.Forall_cons; [|exact Hall].
      split; [lia|]. exists app, port, ep. split; [left; reflexivity|].
      rewrite Hkeep by lia. apply lookup_insert_eq.
    + apply newFrontend_inv in E. subst s1. unfold call_cancel. munfold. cbn.
      intros [= <- <-]. cbn. repeat split; try lia;
        [apply elem_of_union_l, elem_of_singleton; reflexivity|eexists; reflexivity].
Qed.

Lemma built_backend_keep ctx st st' b :
  bnds_heap st' !! b = bnds_heap st !! b ->
  built_backend ctx st b -> built_backend ctx st' b.
Proof. intros E (address & ep & H). exists address, ep. rewrite E. exact H. Qed.

Lemma built_frontend_keep ctx apps apps' st st' f :
  fnds st' !! f = fnds st !! f ->
  (forall a, In a apps -> In a apps') ->
  built_frontend ctx apps st f -> built_frontend ctx apps' st' f.
Proof.
  intros E Hsub (app & port & ep & Hin & H).
  exists app, port, ep. split; [apply Hsub; exact Hin|]. rewrite E. exact H.
Qed.

Lemma count_ports_cons ca l : count_ports (ca :: l) = length (Ports ca) + count_ports l.
Proof. reflexivity. Qed.

Lemma count_targets_cons ca l :
  count_targets (ca :: l) = length (Targets ca) + count_targets l.
Proof. reflexivity. Qed.

Lemma NewProxy_apps_inv env ctx nCtx cancel configApps : forall apps fs bs st r st',
  NewProxy_apps env ctx nCtx cancel configApps apps fs bs st = Some (r, st') ->
  next st <= next st' /\
  (forall b, b < next st -> bnds_heap st' !! b = bnds_heap st !! b) /\
  (forall f, f < next st -> fnds st' !! f = fnds st !! f) /\
  match r with
  | Ok proxy =>
      p_ctx proxy = nCtx /\ p_cancel proxy = cancel /\
      cancelled st' = cancelled st /\
      exists newa newf newb,
        p_apps proxy = apps ++ newa /\
        p_fnds proxy = fs ++ newf /\
        p_bnds proxy = bs ++ newb /\
        length newa = length configApps /\
        length newf = count_ports configApps /\
        length newb = count_targets configApps /\
        Forall (fun b => b < next st' /\ built_backend ctx st' b) newb /\
        Forall (fun f => f < next st' /\ built_frontend nCtx newa st' f) newf
  | Err e => cancel ∈ cancelled st'
  end.
Proof.
  induction configApps as [|ca configApps IH]; intros apps fs bs st r st';
    cbn [NewProxy_apps].
  - intros [= <- <-]. repeat split; try lia.
    exists [], [], []. rewrite !app_nil_r. repeat split; constructor.
  - unfold bind at 1.
    destruct (NewProxy_targets env ctx cancel (Targets ca) [] st) as [[[appBnds|e] s1]|] eqn:Et;
      [| |discriminate].
    + apply NewProxy_targets_inv in Et.
      destruct Et as (Hn1 & Hf1 & Hkeep1 & Hc1 & newb1 & Eb & Hlen1 & Hall1).
      cbn [app] in Eb. subst appBnds. cbv zeta. unfold bind at 1.
      destruct (NewProxy_ports env nCtx cancel (Ports ca)
                  (newApplication nCtx (Name ca) newb1) fs s1)
        as [[[fs1|e] s2]|] eqn:Ep; [| |discriminate].
      * apply NewProxy_ports_inv in Ep.
        destruct Ep as (Hn2 & Hb2 & Hkeep2 & Hc2 & newf1 & -> & Hlen2 & Hall2).
        intros H. apply IH in H. destruct H as (Hn3 & Hkb3 & Hkf3 & Hr).
        split; [lia|]. split.
        { intros b Hb. rewrite Hkb3 by lia. rewrite Hb2. apply Hkeep1. exact Hb. }
        split.
        { intros f Hf. rewrite Hkf3 by lia. rewrite Hkeep2 by lia. rewrite Hf1. reflexivity. }
        destruct r as [proxy|e]; [|exact Hr].
        destruct Hr as (Hctx & Hcan & Hc3 & newa & newf & newb & Ea & Ef & Ebs & Hla & Hlf & Hlb
                        & Hallb & Hallf).
        split; [exact Hctx|]. split; [exact Hcan|].
        split; [rewrite Hc3, Hc2, Hc1; reflexivity|].
        exists (newApplication nCtx (Name ca) newb1 :: newa), (newf1 ++ newf), (newb1 ++ newb).
        split; [rewrite Ea, <- app_assoc; reflexivity|].
        split; [rewrite Ef, <- app_assoc; reflexivity|].
        split; [rewrite Ebs, <- app_assoc; reflexivity|].
        split; [cbn; lia|].
        split; [rewrite length_app, count_ports_cons; lia|].
        split; [rewrite length_app, count_targets_cons; lia|].
        split.
        -- apply List.Forall_app. split; [|exact Hallb].
           eapply Forall_impl; [exact Hall1|]. intros b [Hlt Hb]. split; [lia|].
           apply (built_backend_keep ctx s1); [|exact Hb].
           rewrite Hkb3 by lia. rewrite Hb2. reflexivity.
        -- apply List.Forall_app. split.
           ++ eapply Forall_impl; [exact Hall2|]. intros f [Hlt Hf]. split; [lia|].
              apply (built_frontend_keep nCtx [newApplication nCtx (Name ca) newb1] _ s2);
                [apply Hkf3; exact Hlt| |exact Hf].
              intros a [<-|[]]. left. reflexivity.
           ++ eapply Forall_impl; [exact Hallf|]. intros f [Hlt Hf]. split; [exact Hlt|].
              apply (built_frontend_keep nCtx newa _ st'); [reflexivity| |exact Hf].
              intros a Ha. right. exact Ha.
      * apply NewProxy_ports_inv in Ep. destruct Ep as (Hn2 & Hb2 & Hkeep2 & Hc2 & _).
        intros [= <- <-]. split; [lia|]. split.
        { intros b Hb. rewrite Hb2. apply Hkeep1. exact Hb. }
        split; [|exact Hc2].
        intros f Hf. rewrite Hkeep2 by lia. rewrite Hf1. reflexivity.
    + apply NewProxy_targets_inv in Et. destruct Et as (Hn1 & Hf1 & Hkeep1 & Hc1 & _).
      intros [= <- <-]. split; [lia|]. split; [exact Hkeep1|].
      split; [|exact Hc1]. intros f Hf. rewrite Hf1. reflexivity.
Qed.



(** X13. A failing [NewProxy] has called its cancel function: when it
    returns an error, the context it derived, on which the frontends built
    so far stand, is done. *)
Theorem NewProxy_error_cancels (env : Env) (ctx : context) (config : ProxyConfig)
    (st : State) (e : error) (st' : State) :
  NewProxy env ctx config st = Some (Err e, st') ->
  next st ∈ cancelled st' /\
  Done (cancelled st') (WithCancel ctx (next st)) = true.
Proof.
  unfold NewProxy, context_WithCancel. munfold. cbn.
  intros H. apply NewProxy_apps_inv in H. destruct H as (_ & _ & _ & Hc).
  split; [exact Hc|]. cbn [Done]. rewrite bool_decide_eq_true_2 by exact Hc. reflexivity.
Qed.

Lemma NewProxy_error_cancels_witness :
  next boot_State ∈ cancelled failed_State /\
  Done (cancelled failed_State) (WithCancel caller_ctx (next boot_State)) = true.
Proof.
  apply (NewProxy_error_cancels strict_env caller_ctx bad_target_config boot_State
           (Wrap (Wrap (Errno 22) "SplitHostPort()") "newBackend()") failed_State).
  vm_compute. reflexivity.
Defined.

(** ** Health reports over a run of checks *)

Lemma reports_app addr tr tr' : reports addr (tr ++ tr') = reports addr tr + reports addr tr'.
Proof. unfold reports. rewrite !occurrences_app. lia. Qed.

Lemma reports_healthcheck_effect st b bv dial :
  reports (b_addr bv) (trace (healthcheck_effect b bv dial st)) =
    reports (b_addr bv) (trace st)
    + (if Bool.eqb (b_active bv) (succeeded dial) then 0 else 1).
Proof.
  unfold healthcheck_effect. rewrite setActive_effect_trace, reports_app.
  assert (E : reports (b_addr bv)
                (trace match dial with
                       | Ok netConn => log (TCPClose (Sysfd netConn)) st
                       | Err _ => st
                       end) = reports (b_addr bv) (trace st)).
  { destruct dial; [|reflexivity]. cbn [trace log]. rewrite reports_app.
    unfold reports at 2. rewrite !occurrences_other by discriminate. lia. }
  rewrite E. f_equal.
  destruct (Bool.eqb (b_active bv) (succeeded dial)); [reflexivity|].
  unfold reports. destruct (succeeded dial).
  - rewrite occurrences_one, occurrences_other by discriminate. reflexivity.
  - rewrite occurrences_one, occurrences_other by discriminate. reflexivity.
Qed.

Lemma runHealthcheck_loop_reports b ticks : forall st bv,
  bnds_heap st !! b = Some bv ->
  exists st',
    runHealthcheck_loop b (map case_Tick ticks) st = Some (false, st') /\
    reports (b_addr bv) (trace st') =
      reports (b_addr bv) (trace st) + transitions (b_active bv) (map succeeded ticks).
Proof.
  induction ticks as [|dial ticks IH]; intros st bv Hb.
  - exists st. split; [reflexivity|]. cbn. lia.
  - cbn [map runHealthcheck_loop].
    mnext (healthcheck_attempt_run _ _ _ dial Hb).
    destruct (IH _ _ (healthcheck_effect_backend _ _ _ dial Hb)) as (st' & Hrun & Hrep).
    exists st'. split; [exact Hrun|].
    cbn [b_addr b_active b_with_active] in Hrep. rewrite Hrep.
    rewrite reports_healthcheck_effect. cbn [transitions]. lia.
Qed.

(** X14. The health-check loop reports every change of the backend's
    state and nothing else: after the first check and the checks of any
    number of ticks, the number of "changed active status" reports about
    the backend's address has grown by the number of times the outcome of
    a check differed from the flag it found. *)
Theorem runHealthcheck_reports_transitions (st : State) (b : nat) (bv : backend)
    (first : result net_Conn) (ticks : list (result net_Conn)) :
  bnds_heap st !! b = Some bv ->
  exists st',
    runHealthcheck b first (map case_Tick ticks) st = Some (false, st') /\
    reports (b_addr bv) (trace st') =
      reports (b_addr bv) (trace st)
      + transitions (b_active bv) (map succeeded (first :: ticks)).
Proof.
  intros Hb. unfold runHealthcheck.
  mnext (healthcheck_attempt_run _ _ _ first Hb).
  destruct (runHealthcheck_loop_reports b ticks _ _
              (healthcheck_effect_backend _ _ _ first Hb)) as (st' & Hrun & Hrep).
  exists st'. split; [exact Hrun|].
  cbn [b_addr b_active b_with_active] in Hrep. rewrite Hrep.
  rewrite reports_healthcheck_effect. cbn [map transitions]. lia.
Qed.

Lemma runHealthcheck_reports_transitions_witness :
  exists st',
    runHealthcheck 2 (Ok (sock 20)) (map case_Tick [Ok (sock 21); Err errDial; Err errDial])
      unchecked_State = Some (false, st') /\
    reports "127.0.0.1:9001" (trace st') = reports "127.0.0.1:9001" (trace unchecked_State) + 2.
Proof.
  apply (runHealthcheck_reports_transitions unchecked_State 2
           (mkBackend caller_ctx "127.0.0.1:9001" false ∅ (mkEpoll 102) 5)
           (Ok (sock 20)) [Ok (sock 21); Err errDial; Err errDial]).
  vm_compute. reflexivity.
Defined.

(** ** [Epoll.Wait] on any answers of the kernel *)

Lemma Wait_loop_inv kernel : forall events r rest,
  Wait_loop kernel events = Some (r, rest) ->
  exists errs k,
    kernel = map Failed errs ++ k :: rest /\
    Forall (fun errno => In errno temporary_errnos) errs /\
    match k with
    | Ready evs => r = Ok (slice_to (firstn (Nat.min (length evs) (length events)) evs
                                     ++ skipn (Nat.min (length evs) (length events)) events)
                                    (Z.of_nat (Nat.min (length evs) (length events))))
    | Failed errno =>
        ~ In errno temporary_errnos /\ r = Err (Wrap (Errno errno) "EpollWait()")
    end.
Proof.
  induction kernel as [|k kernel IH]; intros events r rest; [discriminate|].
  destruct k as [evs|errno]; cbn [Wait_loop EpollWait].
  - intros [= <- <-]. exists [], (Ready evs). split; [reflexivity|].
    split; [constructor|reflexivity].
  - destruct (temporaryErr (Errno errno)) eqn:Ht.
    + intros H. apply IH in H. destruct H as (errs & k & -> & Herrs & Hk).
      exists (errno :: errs), k. split; [reflexivity|]. split; [|exact Hk].
      apply List.Forall_cons; [|exact Herrs]. apply temporaryErr_temporary_errnos. exact Ht.
    + intros [= <- <-]. exists [], (Failed errno). split; [reflexivity|].
      split; [constructor|]. split; [|reflexivity].
      rewrite <- temporaryErr_temporary_errnos, Ht. discriminate.
Qed.

Lemma Wait_loop_None_iff kernel : forall events,
  Wait_loop kernel events = None <->
  Forall (fun k => exists errno, k = Failed errno /\ In errno temporary_errnos) kernel.
Proof.
  induction kernel as [|k kernel IH]; intros events.
  - split; [constructor|reflexivity].
  - destruct k as [evs|errno]; cbn [Wait_loop EpollWait].
    + split; [discriminate|]. intros H. apply Forall_cons in H.
      destruct H as [(errno & E & _) _]. discriminate.
    + destruct (temporaryErr (Errno errno)) eqn:Ht.
      * rewrite IH. split.
        -- intros H. apply List.Forall_cons; [|exact H].
           exists errno. split; [reflexivity|]. apply temporaryErr_temporary_errnos. exact Ht.
        -- intros H. apply Forall_cons in H. tauto.
      * split; [discriminate|]. intros H. apply Forall_cons in H.
        destruct H as [(errno' & [= <-] & Hin) _].
        apply temporaryErr_temporary_errnos in Hin. congruence.
Qed.

(** X15. [Wait] returns at the first answer of the kernel that is not a
    temporary failure, never before and never later.  It is still waiting
    exactly when every answer so far is one of the temporary errnos; and
    when it returns, the answers consumed are temporary failures followed
    by one answer, which is either a set of ready events, of which the
    first 100 are returned without error, or another errno, which is
    returned wrapped and without events. *)
Theorem Wait_returns_at_first_lasting_answer (e : Epoll) (kernel : list kernel_answer) :
  (Wait e kernel = None <->
   Forall (fun k => exists errno, k = Failed errno /\ In errno temporary_errnos) kernel) /\
  (forall r rest,
     Wait e kernel = Some (r, rest) ->
     exists errs k,
       kernel = map Failed errs ++ k :: rest /\
       Forall (fun errno => In errno temporary_errnos) errs /\
       match k with
       | Ready evs => r = Ok (firstn 100 evs)
       | Failed errno =>
           ~ In errno temporary_errnos /\ r = Err (Wrap (Errno errno) "EpollWait()")
       end).
Proof.
  unfold Wait. split; [apply Wait_loop_None_iff|].
  intros r rest H. pose proof H as H'. apply Wait_loop_inv in H'.
  destruct H' as (errs & k & -> & Herrs & Hk).
  exists errs, k. split; [reflexivity|]. split; [exact Herrs|].
  destruct k as [evs|errno]; [|exact Hk].
  rewrite Wait_loop_retry, Wait_loop_Ready in H.
  - injection H as <-. reflexivity.
  - eapply Forall_impl; [exact Herrs|]. intros a. apply temporaryErr_temporary_errnos.
Qed.

Lemma Wait_returns_at_first_lasting_answer_witness :
  exists errs k,
    [Failed 4; Failed 11; Ready [mkEpollEvent 1 7]; Failed 9]
      = map Failed errs ++ k :: [Failed 9] /\
    Forall (fun errno => In errno temporary_errnos) errs /\
    match k with
    | Ready evs => Ok [mkEpollEvent 1 7] = Ok (firstn 100 evs)
    | Failed errno =>
        ~ In errno temporary_errnos /\
        Ok [mkEpollEvent 1 7] = Err (Wrap (Errno errno) "EpollWait()")
    end.
Proof.
  destruct (Wait_returns_at_first_lasting_answer (mkEpoll 3)
              [Failed 4; Failed 11; Ready [mkEpollEvent 1 7]; Failed 9]) as [_ H].
  apply (H (Ok [mkEpollEvent 1 7]) [Failed 9]). vm_compute. reflexivity.
Defined.

(** ** Two backends under a run of clients *)

Lemma handleNewConnection_heaps st f fv bk bv netConn nc :
  fnds st !! f = Some fv ->
  nextBackend (f_app fv) st = Some (Ok bk, st) ->
  bnds_heap st !! bk = Some bv ->
  exists a b st1,
    handleNewConnection f netConn (Ok nc) st = Some (Some (a, b), st1) /\
    fnds st1 = <[f := f_with_connections fv (<[Sysfd netConn := a]> (f_connections fv))]>
                 (fnds st) /\
    bnds_heap st1 =
      <[bk := b_with_connections bv (<[Sysfd nc := b]> (b_connections bv))]> (bnds_heap st).
Proof.
  intros Hf Hnext Hbk.
  assert (Er : createRemoteConnection (f_app fv) (Ok nc) st =
               Some (Ok (next st),
                     upd_conns (<[next st := mkConn nc (Sysfd nc) false (BackendRef bk)]>)
                               (bump st))).
  { unfold createRemoteConnection. mnext Hnext. reflexivity. }
  unfold handleNewConnection.
  mnext (load_fnd_run _ _ _ Hf). mnext Er.
  unfold manager_addConn, addConn, frontend_addConn, backend_addConn,
    newConn, new_Once, newPiped, PipedConn_Close, PipedConn_fd, Conn_Close,
    closed_CompareAndSwap, Epoll_Add, fdFromConn.
  destruct (Done (cancelled st) (f_ctx fv)) eqn:Hdf;
    destruct (Done (cancelled st) (b_ctx bv)) eqn:Hdb;
    mrun; eexists _, _, _; (split; [reflexivity|]); mrun; split; reflexivity.
Qed.

Lemma backend_active_insert st st' bk bv cs b :
  bnds_heap st !! bk = Some bv ->
  bnds_heap st' = <[bk := b_with_connections bv cs]> (bnds_heap st) ->
  backend_active st' b = backend_active st b.
Proof.
  intros Hbk E. unfold backend_active. rewrite E.
  destruct (decide (bk = b)) as [<-|Hne].
  - rewrite lookup_insert_eq, Hbk. reflexivity.
  - rewrite lookup_insert_ne by exact Hne. reflexivity.
Qed.

Lemma backend_count_insert_other st st' bk bv cs b :
  bk <> b ->
  bnds_heap st' = <[bk := b_with_connections bv cs]> (bnds_heap st) ->
  backend_count st' b = backend_count st b.
Proof.
  intros Hne E. unfold backend_count. rewrite E, lookup_insert_ne by exact Hne.
  reflexivity.
Qed.

Lemma backend_count_insert_new st st' bk bv k p :
  bnds_heap st !! bk = Some bv ->
  b_connections bv !! k = None ->
  bnds_heap st' = <[bk := b_with_connections bv (<[k := p]> (b_connections bv))]>
                    (bnds_heap st) ->
  backend_count st' bk = (backend_count st bk + 1)%Z.
Proof.
  intros Hbk Hk E. unfold backend_count. rewrite E, lookup_insert_eq, Hbk. cbn.
  rewrite map_size_insert_None by exact Hk. lia.
Qed.

Lemma backend_active_in st b : backend_active st b = true -> is_Some (bnds_heap st !! b).
Proof.
  unfold backend_active. destruct (bnds_heap st !! b); [eauto|discriminate].
Qed.

Lemma nextBackend_two_active st a b1 b2 :
  bnds a = [b1; b2] ->
  backend_active st b1 = true -> backend_active st b2 = true ->
  nextBackend a st =
    Some (Ok (if (backend_count st b2 <? backend_count st b1)%Z then b2 else b1), st).
Proof.
  intros Ha A1 A2.
  pose proof (backend_active_in _ _ A1) as H1. pose proof (backend_active_in _ _ A2) as H2.
  assert (E : nextBackend_range [b1; b2] None 0%Z st =
              Some (Some (if (backend_count st b2 <? backend_count st b1)%Z
                          then b2 else b1), st)).
  { cbn [nextBackend_range]. mnext (active_Load_run _ _ H1). rewrite A1.
    mnext (getConnCount_run _ _ H1). mnext (active_Load_run _ _ H2). rewrite A2.
    mnext (getConnCount_run _ _ H2).
    destruct (backend_count st b2 <? backend_count st b1)%Z; reflexivity. }
  unfold nextBackend. rewrite Ha. mnext E. reflexivity.
Qed.

(** X16. Two backends stay balanced.  On a frontend whose application has
    two distinct backends, both active, with the first holding as many
    connections as the second or one more: after any number of clients are
    accepted one after the other, each with a successful dial whose socket
    has a descriptor not yet in the backends' maps, every client has been
    given a backend, and again the first backend holds as many connections
    as the second or one more. *)
Theorem two_backends_stay_balanced (f b1 b2 : nat) (pairs : list (net_Conn * net_Conn)) :
  forall (st : State) (fv : frontend),
  fnds st !! f = Some fv ->
  bnds (f_app fv) = [b1; b2] ->
  b1 <> b2 ->
  backend_active st b1 = true ->
  backend_active st b2 = true ->
  (backend_count st b2 <= backend_count st b1 <= backend_count st b2 + 1)%Z ->
  NoDup (map (fun pr => Sysfd (snd pr)) pairs) ->
  Forall (fun pr => unused_fd st b1 b2 (Sysfd (snd pr))) pairs ->
  exists st',
    accept_all f pairs st = Some (tt, st') /\
    (backend_count st' b2 <= backend_count st' b1 <= backend_count st' b2 + 1)%Z /\
    (backend_count st' b1 + backend_count st' b2 =
     backend_count st b1 + backend_count st b2 + Z.of_nat (length pairs))%Z.
Proof.
  induction pairs as [|[netConn rc] pairs IH]; intros st fv Hf Ha Hne A1 A2 Hbal Hnd Hun.
  - exists st. split; [reflexivity|]. cbn [length]. split; lia.
  - cbn [map snd] in Hnd. apply NoDup_cons in Hnd. destruct Hnd as [Hnew Hnd].
    apply Forall_cons in Hun. destruct Hun as [Hun0 Hun]. cbn [snd] in Hun0.
    pose proof (nextBackend_two_active st (f_app fv) b1 b2 Ha A1 A2) as Hnext.
    set (bk := if (backend_count st b2 <? backend_count st b1)%Z then b2 else b1) in Hnext.
    assert (Hbk_in : In bk [b1; b2])
      by (unfold bk; destruct (backend_count st b2 <? backend_count st b1)%Z; cbn; auto).
    assert (Hbk_act : backend_active st bk = true)
      by (unfold bk; destruct (backend_count st b2 <? backend_count st b1)%Z; assumption).
    destruct (backend_active_in _ _ Hbk_act) as [bv Hbv].
    destruct (handleNewConnection_heaps st f fv bk bv netConn rc Hf Hnext Hbv)
      as (a & b & st1 & Hrun & Hfnds & Hbnds).
    assert (Hfresh : b_connections bv !! Sysfd rc = None).
    { apply (Hun0 bk); [exact Hbk_in|]. cbn. rewrite Hbv. reflexivity. }
    assert (Hcount_bk : backend_count st1 bk = (backend_count st bk + 1)%Z)
      by (apply (backend_count_insert_new st st1 bk bv _ b Hbv Hfresh Hbnds)).
    assert (Hcount_other : forall b', bk <> b' -> backend_count st1 b' = backend_count st b')
      by (intros b' Hb'; apply (backend_count_insert_other st st1 bk bv _ b' Hb' Hbnds)).
    assert (Hact : forall b', backend_active st1 b' = backend_active st b')
      by (intros b'; apply (backend_active_insert st st1 bk bv _ b' Hbv Hbnds)).
    assert (Hf1 : fnds st1 !! f =
                  Some (f_with_connections fv (<[Sysfd netConn := a]> (f_connections fv))))
      by (rewrite Hfnds; apply lookup_insert_eq).
    assert (Hc1 : (backend_count st1 b1 + backend_count st1 b2
                   = backend_count st b1 + backend_count st b2 + 1)%Z
                  /\ (backend_count st1 b2 <= backend_count st1 b1
                      <= backend_count st1 b2 + 1)%Z).
    { unfold bk in Hcount_bk, Hcount_other.
      destruct (backend_count st b2 <? backend_count st b1)%Z eqn:Hlt.
      - apply Z.ltb_lt in Hlt. rewrite Hcount_bk.
        rewrite (Hcount_other b1) by congruence. lia.
      - apply Z.ltb_ge in Hlt. rewrite Hcount_bk.
        rewrite (Hcount_other b2) by congruence. lia. }
    destruct Hc1 as [Hsum1 Hbal1].
    destruct (IH st1 _ Hf1 Ha Hne) as (st' & Hrun' & Hbal' & Hsum').
    + rewrite Hact. exact A1.
    + rewrite Hact. exact A2.
    + exact Hbal1.
    + exact Hnd.
    + rewrite List.Forall_forall in Hun. rewrite List.Forall_forall.
      intros pr Hpr b' cs Hb' Hcs.
      cbn [manager_connections] in Hcs. rewrite Hbnds in Hcs.
      destruct (decide (bk = b')) as [<-|Hneq].
      * rewrite lookup_insert_eq in Hcs. cbn in Hcs. injection Hcs as <-.
        rewrite lookup_insert_ne.
        -- apply (Hun pr Hpr bk); [exact Hbk_in|]. cbn. rewrite Hbv. reflexivity.
        -- intros E. apply Hnew. rewrite E. apply list_elem_of_In.
           apply (in_map (fun pr => Sysfd (snd pr))). exact Hpr.
      * rewrite lookup_insert_ne in Hcs by exact Hneq.
        apply (Hun pr Hpr b'); [exact Hb'|exact Hcs].
    + exists st'. cbn [accept_all]. mnext Hrun. split; [exact Hrun'|].
      split; [exact Hbal'|]. rewrite Hsum'. cbn [length]. lia.
Qed.

Lemma two_backends_stay_balanced_witness :
  exists st',
    accept_all 4 three_clients two_healthy_State = Some (tt, st') /\
    (backend_count st' 3 <= backend_count st' 2 <= backend_count st' 3 + 1)%Z /\
    (backend_count st' 2 + backend_count st' 3 =
     backend_count two_healthy_State 2 + backend_count two_healthy_State 3
     + Z.of_nat (length three_clients))%Z.
Proof.
  apply (two_backends_stay_balanced 4 2 3 three_clients two_healthy_State two_frontend).
  - vm_compute. reflexivity.
  - reflexivity.
  - discriminate.
  - vm_compute. reflexivity.
  - vm_compute. reflexivity.
  - vm_compute. split; discriminate.
  - apply (bool_decide_unpack _). vm_compute. reflexivity.
  - repeat apply List.Forall_cons; try apply List.Forall_nil;
      intros b cs [<-|[<-|[]]] Hcs; vm_compute in Hcs; injection Hcs as <-;
      vm_compute; reflexivity.
Defined.
